(** * Flamingo population analytics: a shallow embedding of
      [flamingo_analysis.py] and the properties of its pipeline.

    The script wraps one table (a pandas [DataFrame]) in a
    [FlamingoAnalytics] object and runs a fixed sequence of report
    sections over it.  The embedding keeps the three effects the methods
    have: the table they share (and one of them mutates), the lines
    they print, and the files they write.

    - Numbers.  The table holds int64 and binary64 numbers.  The
      development is parametric in the arithmetic (class [Arith]): every
      theorem of the generic part holds for any implementation of the
      elementwise operations.  Two instances are given: [float], the
      binary64 floats of IEEE 754 on the primitive floats of Rocq, on
      which runs are evaluated as numpy would (overflow and rounding
      included), and [xnum], the exact rationals extended with the two
      infinities and NaN, which rounds nothing.  Where a property depends
      on rounding it is proved from the standard model of floating-point
      arithmetic (class [Rounding]: a relative error of at most the unit
      roundoff for each operation in range, whole numbers up to 2^53
      exact), which [xnum] satisfies with a roundoff of 0.
    - pandas, scipy, matplotlib.  Their functions are modelled by what the
      script relies on: column lookup and assignment, element-wise
      arithmetic, [groupby(..).sum()], [sort_values], [value_counts],
      [dropna]; the CSV parser, the Shapiro-Wilk test (which returns or
      raises, as the installed SciPy decides) and the chart renderer stay
      parameters (class [Extern], argument [render]).
      The defaults of pandas are kept: a missing value is NaN; [sum] and
      [mean] skip it; [groupby] and [value_counts] drop the rows whose key
      is missing; [sort_values] puts NaN last; [df[name] = col] replaces a
      column of that name where it stands and appends otherwise.  A
      string met by arithmetic or by a numeric aggregation is a
      [TypeError].  The columns of a table without rows have the dtype
      [object], as [pd.read_csv] leaves them: their sums are Python
      [int]s, whose division by zero raises.
    - Text formatting of floats is not modelled: a printed line that
      interpolates a float is an [event] carrying the value.
    - Files are a map from paths to nodes; the permissions of the
      operating system are not modelled. *)

From Stdlib Require Import QArith Qcanon Qabs Lqa Floats.
From stdpp Require Import base option list strings pretty sorting gmap.


(** ** Arithmetic of table cells *)

Class Arith (F : Type) := {
  fadd : F → F → F;
  fsub : F → F → F;
  fmul : F → F → F;
  fdiv : F → F → F;
  of_nat : nat → F;          (* conversion of a Python [int] *)
  isnan : F → bool;
  fleb : F → F → bool;       (* [<=]; false as soon as one side is NaN *)
  F_eq_dec :: EqDecision F;  (* identity of values, for group keys *)
}.

(** What the ordering has to satisfy for a sort to be meaningful:
    numbers that are not NaN are totally ordered. *)
Class ArithOrder (F : Type) `{Arith F} : Prop := {
  fleb_total x y : isnan x = false → isnan y = false →
                   fleb x y = true ∨ fleb y x = true;
  fleb_trans x y z : fleb x y = true → fleb y z = true → fleb x z = true;
}.

(** ** Exceptions *)

Inductive exn :=
| FileNotFoundError (path : string)
| IsADirectoryError (path : string)
| NotADirectoryError (path : string)
| ParserError (msg : string)      (* any other failure of [pd.read_csv] *)
| KeyError (key : string)
| TypeError (msg : string)
| ValueError (msg : string)
| ZeroDivisionError (msg : string).

Global Instance exn_eq_dec : EqDecision exn.
Proof. solve_decision. Defined.

(** [except FileNotFoundError] *)
Definition is_FileNotFoundError (e : exn) : bool :=
  match e with FileNotFoundError _ => true | _ => false end.

(** [str(e)], as interpolated by [f"{e}"]. *)
Definition exn_message (e : exn) : string :=
  match e with
  | FileNotFoundError p => "[Errno 2] No such file or directory: '" +:+ p +:+ "'"
  | IsADirectoryError p => "[Errno 21] Is a directory: '" +:+ p +:+ "'"
  | NotADirectoryError p => "[Errno 20] Not a directory: '" +:+ p +:+ "'"
  | ParserError m => m
  | KeyError k => "'" +:+ k +:+ "'"
  | TypeError m => m
  | ValueError m => m
  | ZeroDivisionError m => m
  end.

(** ** The table *)

Section Table.
Context {F : Type} `{Arith F}.

(** A cell read from a CSV file is a number or a string; a missing value
    is the number NaN, in numeric and in string columns alike. *)
Inductive cell :=
| CNum (x : F)
| CStr (s : string).

Global Instance cell_eq_dec : EqDecision cell.
Proof. solve_decision. Defined.

Definition isnull (c : cell) : bool :=
  match c with CNum x => isnan x | CStr _ => false end.

Definition is_num (c : cell) : bool :=
  match c with CNum _ => true | CStr _ => false end.

(** Columns in their order; [nrows] is [len(df)]. *)
Record dataframe := {
  nrows : nat;
  columns : list (string * list cell);
}.

Definition wf (d : dataframe) : Prop :=
  Forall (λ c, length c.2 = nrows d) (columns d) ∧ NoDup (columns d).*1.

Definition column_names (d : dataframe) : list string := (columns d).*1.

(** ['name' in df.columns] *)
Definition has_col (name : string) (d : dataframe) : bool :=
  bool_decide (name ∈ column_names d).

Fixpoint alist_get {A} (name : string) (l : list (string * A)) : option A :=
  match l with
  | [] => None
  | (n, a) :: l => if decide (n = name) then Some a else alist_get name l
  end.

(** An existing binding is replaced where it stands, a new one goes last. *)
Fixpoint alist_set {A} (name : string) (a : A) (l : list (string * A))
  : list (string * A) :=
  match l with
  | [] => [(name, a)]
  | (n, b) :: l =>
      if decide (n = name) then (n, a) :: l else (n, b) :: alist_set name a l
  end.

Definition get_col (name : string) (d : dataframe) : option (list cell) :=
  alist_get name (columns d).

(** [df[name] = col] *)
Definition set_col (name : string) (col : list cell) (d : dataframe) : dataframe :=
  {| nrows := nrows d; columns := alist_set name col (columns d) |}.

(** A column all of whose cells are numbers: with a row its dtype is
    int64 or float64; a column without rows, whose dtype is [object]
    after [pd.read_csv], is included. *)
Definition numeric_col (name : string) (d : dataframe) : Prop :=
  ∃ col, get_col name d = Some col ∧ Forall (λ c, is_num c = true) col.

(** ** Aggregations *)

Definition zero : F := of_nat 0.

(** [Series.sum()]: missing values are skipped, the empty sum is 0. *)
Definition nansum (xs : list F) : F :=
  foldl fadd zero (filter (λ x, isnan x = false) xs).

(** [Series.mean()] *)
Definition nanmean (xs : list F) : F :=
  let ys := filter (λ x, isnan x = false) xs in
  fdiv (foldl fadd zero ys) (of_nat (length ys)).

(** [Series.dropna()] on a numeric column *)
Definition dropna (xs : list F) : list F := filter (λ x, isnan x = false) xs.

(** [(p2023 - p2020) / p2020 * 100] *)
Definition growth (p2023 p2020 : F) : F :=
  fmul (fdiv (fsub p2023 p2020) p2020) (of_nat 100).


(** One pass of a hash aggregation: [acc[k] += v], a new key goes last. *)
Fixpoint accumulate {A} (f : A → A) (init : A) (k : cell) (acc : list (cell * A))
  : list (cell * A) :=
  match acc with
  | [] => [(k, f init)]
  | (k', a) :: acc =>
      if decide (k' = k) then (k', f a) :: acc
      else (k', a) :: accumulate f init k acc
  end.

Definition add_skipna (v a : F) : F := if isnan v then a else fadd a v.

(** Order of group keys: numbers first, by value; strings by code point. *)
Definition key_leb (a b : cell) : bool :=
  match a, b with
  | CNum x, CNum y => fleb x y
  | CNum _, CStr _ => true
  | CStr _, CNum _ => false
  | CStr s, CStr t => String.leb s t
  end.

Definition by_key {A} (p q : cell * A) : Prop := key_leb p.1 q.1 = true.

Global Instance by_key_dec {A} (p q : cell * A) : Decision (by_key p q).
Proof. unfold by_key. apply _. Defined.

(** One row of a grouped sum: a row whose key is missing is dropped, a
    value that is missing adds nothing (the sum of a group without values
    is 0). *)
Definition sum_step (acc : list (cell * F)) (kv : cell * F) : list (cell * F) :=
  if isnull kv.1 then acc else accumulate (add_skipna kv.2) zero kv.1 acc.

(** [df.groupby(key)[val].sum()]: the groups come sorted by key. *)
Definition group_sums (keys : list cell) (vals : list F) : list (cell * F) :=
  merge_sort by_key (foldl sum_step [] (zip keys vals)).

Definition count_ge (p q : cell * nat) : Prop := q.2 ≤ p.2.

Global Instance count_ge_dec p q : Decision (count_ge p q).
Proof. unfold count_ge. apply _. Defined.

(** One cell of a frequency count: a missing value is dropped. *)
Definition count_step (acc : list (cell * nat)) (k : cell) : list (cell * nat) :=
  if isnull k then acc else accumulate S 0 k acc.

(** [Series.value_counts()]: the most frequent value comes first. *)
Definition value_counts (col : list cell) : list (cell * nat) :=
  merge_sort count_ge (foldl count_step [] col).

(** Descending order of [sort_values(ascending=False)]: NaN comes last. *)
Definition desc_leb (x y : F) : bool :=
  isnan y || (negb (isnan x) && fleb y x).

Definition desc {A} (p q : A * F) : Prop := desc_leb p.2 q.2 = true.

Global Instance desc_dec {A} (p q : A * F) : Decision (desc p q).
Proof. unfold desc. apply _. Defined.

(** Ascending order of [sort_values()]: NaN comes last as well. *)
Definition asc_leb (x y : F) : bool :=
  isnan y || (negb (isnan x) && fleb x y).

Definition asc {A} (p q : A * F) : Prop := asc_leb p.2 q.2 = true.

Global Instance asc_dec {A} (p q : A * F) : Decision (asc p q).
Proof. unfold asc. apply _. Defined.

Definition sort_values_desc (s : list (cell * F)) : list (cell * F) :=
  merge_sort desc s.

Definition sort_values_asc (s : list (cell * F)) : list (cell * F) :=
  merge_sort asc s.

End Table.

Arguments cell F : clear implicits.
Arguments dataframe F : clear implicits.

(** ** Effects: exceptions, the printed lines, a piece of state *)

Inductive view := Head | Dtypes | MissingValues | SummaryStatistics.
Inductive stat := Mean | Median | StdDev | Min | Max.

(** What [print] receives.  [Line] is a line of plain text; the other
    constructors are the lines that interpolate floats or tables. *)
Inductive event (F : Type) :=
| Line (s : string)
| Shape (rows cols : nat)
| Frame (v : view) (d : dataframe F)
| AvgGrowth (v : F)
| TotalPopulation (year : string) (v : F)
| OverallGrowth (v : F)
| GroupLine (k : cell F) (pop pct : F)
| HabitatLine (k : cell F) (count : nat) (pct : F)
| StatusLine (k : cell F) (count : nat)
| StatLine (s : stat) (data : list F)
| PValue (p : F).

Arguments Line {F} s.
Arguments Shape {F} rows cols.
Arguments Frame {F} v d.
Arguments AvgGrowth {F} v.
Arguments TotalPopulation {F} year v.
Arguments OverallGrowth {F} v.
Arguments GroupLine {F} k pop pct.
Arguments HabitatLine {F} k count pct.
Arguments StatusLine {F} k count.
Arguments StatLine {F} s data.
Arguments PValue {F} p.

(** A computation over a state [S]: it returns or raises, leaves a state
    behind in both cases (Python mutates in place), and prints. *)
Definition M (F S A : Type) : Type := S → (exn + A) * S * list (event F).

Section Monad.
Context {F S : Type}.

(** The lines [o] were printed before the run that ended in [r]. *)
Definition emit {A} (o : list (event F)) (r : (exn + A) * S * list (event F))
  : (exn + A) * S * list (event F) :=
  (r.1.1, r.1.2, o ++ r.2).

Global Instance M_ret : MRet (M F S) := λ A x s, (inr x, s, []).

Global Instance M_bind : MBind (M F S) := λ A B f m s,
  match m s with
  | (inl e, s1, o1) => (inl e, s1, o1)
  | (inr x, s1, o1) => emit o1 (f x s1)
  end.

Definition raise {A} (e : exn) : M F S A := λ s, (inl e, s, []).
Definition print (e : event F) : M F S unit := λ s, (inr (), s, [e]).
Definition get : M F S S := λ s, (inr s, s, []).
Definition put (s : S) : M F S unit := λ _, (inr (), s, []).

(** [for x in l: body(x)] *)
Fixpoint for_each {A} (l : list A) (body : A → M F S unit) : M F S unit :=
  match l with
  | [] => mret ()
  | x :: l => body x;; for_each l body
  end.

(** [if c: body] *)
Definition when (c : bool) (body : M F S unit) : M F S unit :=
  if c then body else mret ().

End Monad.

(** ** Text *)

Definition nl : string := String (Ascii.ascii_of_nat 10) "".

(** [s * n] *)
Fixpoint str_mul (s : string) (n : nat) : string :=
  match n with 0 => "" | S n => s +:+ str_mul s n end.

(** [', '.join(l)] *)
Fixpoint join (sep : string) (l : list string) : string :=
  match l with
  | [] => ""
  | [s] => s
  | s :: l => s +:+ sep +:+ join sep l
  end.

Definition rule : string := str_mul "=" 70.
Definition thin_rule : string := str_mul "-" 70.

(** ** External libraries *)

Class Extern (F : Type) `{Arith F} := {
  (** the CSV parser of [pd.read_csv], from the bytes of the file *)
  parse_csv : string → exn + dataframe F;
  (** [scipy.stats.shapiro]: the statistic and the p-value, or the
      exception with which the installed SciPy refuses the sample (the
      script pins no version, and what a sample of fewer than three
      values gives depends on it) *)
  shapiro_wilk : list F → exn + F * F;
}.

(** ** The analysis methods: state [self.df], no file access *)

Section Analysis.
Context {F : Type} `{Extern F}.

Local Abbreviation A := (M F (dataframe F)).

Definition banner (title : string) : A unit :=
  print (Line rule);; print (Line title);; print (Line rule).

(** [self.df[name]] *)
Definition column (name : string) : A (list (cell F)) :=
  d ← get;
  match get_col name d with
  | Some c => mret c
  | None => raise (KeyError name)
  end.

(** [self.df.groupby(key)[name]] *)
Definition grouped_column (name : string) : A (list (cell F)) :=
  d ← get;
  match get_col name d with
  | Some c => mret c
  | None => raise (KeyError ("Column not found: " +:+ name))
  end.

Definition to_num (c : cell F) : option F :=
  match c with CNum x => Some x | CStr _ => None end.

(** The values of a column that enters arithmetic or a numeric
    aggregation; a string there is a [TypeError]. *)
Definition numeric (col : list (cell F)) : A (list F) :=
  match mapM to_num col with
  | Some xs => mret xs
  | None => raise (TypeError "unsupported operand type(s): 'str'")
  end.

(** [self.df[name] = col] *)
Definition assign (name : string) (col : list (cell F)) : A unit :=
  d ← get; put (set_col name col d).

Definition percent (part whole : F) : F :=
  fmul (fdiv part whole) (of_nat 100).

Definition head (d : dataframe F) : dataframe F :=
  {| nrows := min 5 (nrows d);
     columns := prod_map id (take 5) <$> columns d |}.

(** [exploratory_analysis], lines 59-76 *)
Definition exploratory_analysis : A unit :=
  banner "EXPLORATORY DATA ANALYSIS";;
  d ← get;
  print (Shape (nrows d) (length (columns d)));;
  print (Line (nl +:+ "[*] First 5 records:"));;
  print (Frame Head (head d));;
  print (Line (nl +:+ "[*] Data Types:"));;
  print (Frame Dtypes d);;
  print (Line (nl +:+ "[*] Missing Values:"));;
  print (Frame MissingValues d);;
  print (Line (nl +:+ "[*] Summary Statistics:"));;
  print (Frame SummaryStatistics d);;
  print (Line nl).

(** The code that the species breakdown (lines 103-106) and the region
    breakdown (lines 120-123) share, up to the key column:
    [groupby(key)['population_2023'].sum().sort_values(ascending=False)],
    then one line for each group with its share of [pop.sum()]. *)
Definition breakdown (key : string) : A unit :=
  keys ← column key;
  vals ← grouped_column "population_2023";
  xs ← numeric vals;
  let pop := sort_values_desc (group_sums keys xs) in
  for_each pop (λ g, print (GroupLine g.1 g.2 (percent g.2 (nansum pop.*2)))).

(** [(total_2023 - total_2020) / total_2020 * 100], line 98.  The two
    totals are numpy floats, whose division never raises, except on a
    table without rows: [pd.read_csv] gives the columns of such a table
    the dtype [object], the sum of an empty [object] column is the Python
    [int] 0, and [0 / 0] on [int]s raises. *)
Definition overall_growth (c23 c20 : list (cell F)) (total_2023 total_2020 : F)
  : A F :=
  if decide (c23 = [] ∧ c20 = []) then raise (ZeroDivisionError "division by zero")
  else mret (growth total_2023 total_2020).

(** The block that computes the growth rate, lines 89-98. *)
Definition growth_block : A unit :=
  c23 ← column "population_2023";
  c20 ← column "population_2020";
  p23 ← numeric c23;
  p20 ← numeric c20;
  assign "growth_rate" (CNum <$> zip_with growth p23 p20);;
  g ← column "growth_rate" ≫= numeric;
  print (AvgGrowth (nanmean g));;
  let total_2020 := nansum p20 in
  let total_2023 := nansum p23 in
  print (TotalPopulation "2020" total_2020);;
  print (TotalPopulation "2023" total_2023);;
  overall ← overall_growth c23 c20 total_2023 total_2020;
  print (OverallGrowth overall).

(** [population_analysis], lines 78-108 *)
Definition population_analysis : A unit :=
  banner "POPULATION ANALYSIS";;
  d ← get;
  when (has_col "population_2020" d && has_col "population_2023" d)
    growth_block;;
  d ← get;
  when (has_col "species" d) (
    print (Line (nl +:+ "[*] Population by Species (2023):"));;
    breakdown "species");;
  print (Line nl).

(** [geographic_analysis], lines 110-132 *)
Definition geographic_analysis : A unit :=
  banner "GEOGRAPHIC DISTRIBUTION ANALYSIS";;
  d ← get;
  when (has_col "region" d) (
    print (Line (nl +:+ "[*] Population Distribution by Region (2023):"));;
    breakdown "region");;
  when (has_col "habitat_type" d) (
    print (Line (nl +:+ "[*] Habitat Type Distribution:"));;
    h ← column "habitat_type";
    for_each (value_counts h) (λ hc,
      print (HabitatLine hc.1 hc.2
               (percent (of_nat hc.2) (of_nat (nrows d))))));;
  print (Line nl).

(** [conservation_status_analysis], lines 134-148 *)
Definition conservation_status_analysis : A unit :=
  banner "CONSERVATION STATUS ANALYSIS";;
  d ← get;
  when (has_col "conservation_status" d) (
    print (Line (nl +:+ "[*] Conservation Status Distribution:"));;
    c ← column "conservation_status";
    for_each (value_counts c) (λ sc, print (StatusLine sc.1 sc.2)));;
  print (Line nl).

(** The call of [scipy.stats.shapiro], line 168: its exception is not
    caught. *)
Definition shapiro (xs : list F) : A (F * F) :=
  match shapiro_wilk xs with
  | inl e => raise e
  | inr sp => mret sp
  end.

(** [statistical_tests], lines 150-171 *)
Definition statistical_tests : A unit :=
  banner "STATISTICAL ANALYSIS";;
  d ← get;
  when (has_col "population_2023" d) (
    c ← column "population_2023";
    let pop_data := filter (λ c, isnull c = false) c in
    print (Line (nl +:+ "[+] Population Statistics (2023):"));;
    xs ← numeric pop_data;
    print (StatLine Mean xs);;
    print (StatLine Median xs);;
    print (StatLine StdDev xs);;
    print (StatLine Min xs);;
    print (StatLine Max xs);;
    sp ← shapiro xs;
    print (PValue sp.2));;
  print (Line nl).

End Analysis.

(** ** Files *)

Inductive node := Dir | File (content : string).

Global Instance node_eq_dec : EqDecision node.
Proof. solve_decision. Defined.

(** What a chart is drawn from. *)
Inductive chart (F : Type) :=
| BarH (data : list (cell F * F))
| Bar (x : list (cell F)) (y : list F).

Arguments BarH {F} data.
Arguments Bar {F} x y.

Section Files.
Context {F : Type}.

Local Abbreviation IO := (M F (gmap string node)).

(** [os.path.exists(p)] *)
Definition path_exists (p : string) : IO bool :=
  fs ← get; mret (bool_decide (is_Some (fs !! p))).

(** [os.makedirs(p)], called on a path that does not exist *)
Definition makedirs (p : string) : IO unit :=
  fs ← get; put (<[p := Dir]> fs).

(** [open(path, 'w')] for a file directly under [parent]: the file is
    created or truncated. *)
Definition open_w (parent path : string) : IO unit :=
  fs ← get;
  match fs !! parent with
  | None => raise (FileNotFoundError path)
  | Some (File _) => raise (NotADirectoryError path)
  | Some Dir =>
      match fs !! path with
      | Some Dir => raise (IsADirectoryError path)
      | _ => put (<[path := File ""]> fs)
      end
  end.

(** [f.write(s)] on the file opened at [path] *)
Definition write (path s : string) : IO unit :=
  fs ← get;
  match fs !! path with
  | Some (File c) => put (<[path := File (c +:+ s)]> fs)
  | _ => raise (ValueError "I/O operation on closed file.")
  end.

(** [plt.savefig(path)] *)
Definition savefig (parent path image : string) : IO unit :=
  open_w parent path;; write path image.

Definition try_except {S A} (body : M F S A) (handler : exn → M F S A)
  : M F S A := λ s,
  match body s with
  | (inl e, s1, o1) => emit o1 (handler e s1)
  | r => r
  end.

End Files.

(** ** The object and the methods that touch files *)

Record session (F : Type) := {
  self_df : dataframe F;
  files : gmap string node;
}.

Arguments self_df {F} s.
Arguments files {F} s.

Section Pipeline.
Context {F : Type} `{Extern F}.

Local Abbreviation P := (M F (session F)).

(** A method that only uses [self.df]. *)
Definition on_table {X} (m : M F (dataframe F) X) : P X := λ s,
  match m (self_df s) with
  | (r, d, o) => (r, {| self_df := d; files := files s |}, o)
  end.

(** A file operation. *)
Definition on_files {X} (m : M F (gmap string node) X) : P X := λ s,
  match m (files s) with
  | (r, fs, o) => (r, {| self_df := self_df s; files := fs |}, o)
  end.

Definition species_chart : string := "outputs/species_distribution.png".
Definition growth_chart : string := "outputs/growth_rates.png".
Definition report_path : string := "outputs/analysis_report.txt".

(** [generate_visualizations], lines 173-211.  [render] stands for
    matplotlib: the bytes of the image of a chart. *)
Definition generate_visualizations (render : chart F → string) : P unit :=
  print (Line "[*] Generating visualizations...");;
  e ← on_files (path_exists "outputs");
  when (negb e) (on_files (makedirs "outputs"));;
  d ← on_table get;
  when (has_col "species" d) (
    species_pop ← on_table (
      keys ← column "species";
      vals ← grouped_column "population_2023";
      xs ← numeric vals;
      mret (sort_values_asc (group_sums keys xs)));
    on_files (savefig "outputs" species_chart (render (BarH species_pop)));;
    print (Line "[+] Saved: outputs/species_distribution.png"));;
  when (has_col "growth_rate" d && has_col "species" d) (
    bars ← on_table (
      x ← column "species";
      y ← column "growth_rate" ≫= numeric;
      mret (Bar x y));
    on_files (savefig "outputs" growth_chart (render bars));;
    print (Line "[+] Saved: outputs/growth_rates.png"));;
  print (Line nl).

(** The text of the report for a table of [n] records. *)
Definition report_text (n : nat) : string :=
  rule +:+ nl +:+
  "FLAMINGO POPULATION DATA ANALYTICS REPORT" +:+ nl +:+
  rule +:+ nl +:+ nl +:+
  "PROJECT OVERVIEW" +:+ nl +:+
  thin_rule +:+ nl +:+
  "This report contains a comprehensive analysis of global flamingo" +:+ nl +:+
  "populations, including demographic trends, geographic distribution," +:+ nl +:+
  "and conservation status assessment." +:+ nl +:+ nl +:+
  "KEY STATISTICS" +:+ nl +:+
  thin_rule +:+ nl +:+
  "Total Records Analyzed: " +:+ pretty n +:+ nl +:+
  "Date Generated: December 2025" +:+ nl +:+
  "Analysis Period: 2020-2023" +:+ nl +:+ nl +:+
  "For detailed analysis, see the main README.md file." +:+ nl.

(** [generate_report], lines 213-237 *)
Definition generate_report : P unit :=
  print (Line "[*] Generating analysis report...");;
  on_files (open_w "outputs" report_path);;
  let f_write s := on_files (write report_path s) in
  f_write (rule +:+ nl);;
  f_write ("FLAMINGO POPULATION DATA ANALYTICS REPORT" +:+ nl);;
  f_write (rule +:+ nl +:+ nl);;
  f_write ("PROJECT OVERVIEW" +:+ nl);;
  f_write (thin_rule +:+ nl);;
  f_write ("This report contains a comprehensive analysis of global flamingo" +:+ nl);;
  f_write ("populations, including demographic trends, geographic distribution," +:+ nl);;
  f_write ("and conservation status assessment." +:+ nl +:+ nl);;
  f_write ("KEY STATISTICS" +:+ nl);;
  f_write (thin_rule +:+ nl);;
  d ← on_table get;
  f_write ("Total Records Analyzed: " +:+ pretty (nrows d) +:+ nl);;
  f_write ("Date Generated: December 2025" +:+ nl);;
  f_write ("Analysis Period: 2020-2023" +:+ nl +:+ nl);;
  f_write ("For detailed analysis, see the main README.md file." +:+ nl);;
  print (Line "[+] Saved: outputs/analysis_report.txt").

(** [run_full_analysis], lines 239-262 *)
Definition run_full_analysis (render : chart F → string) : P unit :=
  print (Line (nl +:+ rule));;
  print (Line "FLAMINGO POPULATION DATA ANALYTICS - FULL ANALYSIS");;
  print (Line (rule +:+ nl));;
  on_table exploratory_analysis;;
  on_table population_analysis;;
  on_table geographic_analysis;;
  on_table conservation_status_analysis;;
  on_table statistical_tests;;
  generate_visualizations render;;
  generate_report;;
  print (Line rule);;
  print (Line "ANALYSIS COMPLETE");;
  print (Line (rule +:+ nl));;
  print (Line "[+] All results saved to the 'outputs' directory");;
  print (Line "[+] Generated files:");;
  print (Line "    - species_distribution.png");;
  print (Line "    - growth_rates.png");;
  print (Line ("    - analysis_report.txt" +:+ nl)).


(** ** Loading *)

Local Abbreviation IO := (M F (gmap string node)).

(** [pd.read_csv(path)] *)
Definition read_csv (path : string) : IO (dataframe F) :=
  fs ← get;
  match fs !! path with
  | None => raise (FileNotFoundError path)
  | Some Dir => raise (IsADirectoryError path)
  | Some (File content) =>
      match parse_csv content with
      | inl e => raise e
      | inr d => mret d
      end
  end.

(** [load_data], lines 42-57.  The method returns the table that it
    stores in [self.df]. *)
Definition load_data (data_file : string) : IO (dataframe F) :=
  print (Line "[*] Loading flamingo population data...");;
  try_except
    (d ← read_csv data_file;
     print (Line ("[+] Successfully loaded " +:+ pretty (nrows d) +:+ " records"));;
     print (Line ("[+] Columns: " +:+ join ", " (column_names d) +:+ nl));;
     mret d)
    (λ e,
       if is_FileNotFoundError e then
         print (Line ("[!] Error: File '" +:+ data_file +:+ "' not found"));;
         raise e
       else
         print (Line ("[!] Error loading data: " +:+ exn_message e));;
         raise e).

(** A method called on the object whose table is [d]. *)
Definition call {X} (method : P X) (d : dataframe F) : IO X := λ fs,
  match method {| self_df := d; files := fs |} with
  | (r, s, o) => (r, files s, o)
  end.

(** [FlamingoAnalytics(data_file)] followed by a method call on the
    object: the constructor loads the table or lets the exception out. *)
Definition with_object {X} (data_file : string) (method : P X) : IO X :=
  d ← load_data data_file; call method d.

(** [main], lines 265-273 *)
Definition main (render : chart F → string) : IO unit :=
  with_object "data/flamingo_data.csv" (run_full_analysis render).

End Pipeline.

(** ** Exact arithmetic: rationals with the two infinities and NaN *)

Inductive xnum :=
| Fin (q : Qc)
| PInf
| NInf
| NaN.

Global Instance xnum_eq_dec : EqDecision xnum.
Proof. solve_decision. Defined.

Definition qsign (q : Qc) : comparison := (Qnum q ?= 0)%Z.

Definition xneg (x : xnum) : xnum :=
  match x with
  | Fin q => Fin (- q)%Qc
  | PInf => NInf
  | NInf => PInf
  | NaN => NaN
  end.

Definition xadd (x y : xnum) : xnum :=
  match x, y with
  | NaN, _ | _, NaN => NaN
  | Fin a, Fin b => Fin (a + b)%Qc
  | PInf, NInf | NInf, PInf => NaN
  | PInf, _ | _, PInf => PInf
  | NInf, _ | _, NInf => NInf
  end.

Definition xsub (x y : xnum) : xnum := xadd x (xneg y).

(** The sign of a number that is not NaN; zero has no sign. *)
Definition xsign (x : xnum) : comparison :=
  match x with
  | Fin q => qsign q
  | PInf => Gt
  | NInf => Lt
  | NaN => Eq
  end.

Definition signed_inf (s : comparison) : xnum :=
  match s with Gt => PInf | Lt => NInf | Eq => NaN end.

Definition sign_mul (s t : comparison) : comparison :=
  match s, t with
  | Eq, _ | _, Eq => Eq
  | Gt, Gt | Lt, Lt => Gt
  | _, _ => Lt
  end.

Definition xmul (x y : xnum) : xnum :=
  match x, y with
  | NaN, _ | _, NaN => NaN
  | Fin a, Fin b => Fin (a * b)%Qc
  | _, _ => signed_inf (sign_mul (xsign x) (xsign y))
  end.

Definition xdiv (x y : xnum) : xnum :=
  match x, y with
  | NaN, _ | _, NaN => NaN
  | Fin a, Fin b =>
      if decide (b = 0%Qc) then signed_inf (qsign a) else Fin (a / b)%Qc
  | Fin _, _ => Fin 0%Qc
  | _, Fin b => if decide (b = 0%Qc) then x
                else signed_inf (sign_mul (xsign x) (qsign b))
  | _, _ => NaN
  end.

Definition xisnan (x : xnum) : bool :=
  match x with NaN => true | _ => false end.

Definition xleb (x y : xnum) : bool :=
  match x, y with
  | NaN, _ | _, NaN => false
  | Fin a, Fin b => Qle_bool a b
  | NInf, _ | _, PInf => true
  | _, _ => false
  end.

Definition x_of_nat (n : nat) : xnum := Fin (Qc_of_Z (Z.of_nat n)).

Global Instance xnum_arith : Arith xnum := {|
  fadd := xadd; fsub := xsub; fmul := xmul; fdiv := xdiv;
  of_nat := x_of_nat; isnan := xisnan; fleb := xleb;
|}.

(** ** Reading the printed lines *)

Section Reading.
Context {F : Type} `{Arith F}.

(** The lines of a breakdown: key, population of the group, percentage. *)
Definition group_lines (out : list (event F)) : list (cell F * F * F) :=
  omap (λ e, match e with GroupLine k p q => Some (k, p, q) | _ => None end) out.

(** The lines of the habitat distribution: key, count, percentage. *)
Definition habitat_lines (out : list (event F)) : list (cell F * nat * F) :=
  omap (λ e, match e with HabitatLine k n q => Some (k, n, q) | _ => None end) out.

(** The lines that the loop of a breakdown prints for the series [pop]. *)
Definition breakdown_lines (pop : list (cell F * F)) : list (event F) :=
  (λ g, GroupLine g.1 g.2 (fmul (fdiv g.2 (nansum pop.*2)) (of_nat 100))) <$> pop.


(** The entry of a key in the table of a hash aggregation. *)
Fixpoint acc_get {A} (k : cell F) (acc : list (cell F * A)) : option A :=
  match acc with
  | [] => None
  | (k', a) :: acc => if decide (k' = k) then Some a else acc_get k acc
  end.

(** The only change a method makes to the table: [growth_rate] is set. *)
Definition grows (d d' : dataframe F) : Prop :=
  d' = d ∨ ∃ g, d' = set_col "growth_rate" g d.

End Reading.

(** ** The outcomes of the guarded blocks *)

Definition species_title : string := nl +:+ "[*] Population by Species (2023):".
Definition region_title : string :=
  nl +:+ "[*] Population Distribution by Region (2023):".
Definition habitat_title : string := nl +:+ "[*] Habitat Type Distribution:".

Section Outcomes.
Context {F : Type} `{Extern F}.
Implicit Types (d : dataframe F).

Definition banner_lines (title : string) : list (event F) :=
  [Line rule; Line title; Line rule].

Definition growth_events (p23 p20 : list F) : list (event F) :=
  [ AvgGrowth (nanmean (zip_with growth p23 p20));
    TotalPopulation "2020" (nansum p20);
    TotalPopulation "2023" (nansum p23);
    OverallGrowth (growth (nansum p23) (nansum p20)) ].

(** The outcomes of the guarded growth-rate block. *)
Inductive growth_outcome d : (exn + unit) * dataframe F * list (event F) → Prop :=
| growth_skipped :
    has_col "population_2020" d && has_col "population_2023" d = false →
    growth_outcome d (inr (), d, [])
| growth_done c23 c20 p23 p20 :
    get_col "population_2023" d = Some c23 →
    get_col "population_2020" d = Some c20 →
    mapM to_num c23 = Some p23 →
    mapM to_num c20 = Some p20 →
    ¬ (c23 = [] ∧ c20 = []) →
    growth_outcome d
      (inr (), set_col "growth_rate" (CNum <$> zip_with growth p23 p20) d,
       growth_events p23 p20)
| growth_no_rows :
    get_col "population_2023" d = Some [] →
    get_col "population_2020" d = Some [] →
    growth_outcome d
      (inl (ZeroDivisionError "division by zero"), set_col "growth_rate" [] d,
       [ AvgGrowth (nanmean []); TotalPopulation "2020" (nansum []);
         TotalPopulation "2023" (nansum []) ])
| growth_failed c23 c20 e :
    get_col "population_2023" d = Some c23 →
    get_col "population_2020" d = Some c20 →
    mapM to_num c23 = None ∨ mapM to_num c20 = None →
    growth_outcome d (inl e, d, []).

(** The outcomes of a guarded breakdown. *)
Inductive breakdown_outcome (key title : string) d
  : (exn + unit) * dataframe F * list (event F) → Prop :=
| breakdown_skipped :
    has_col key d = false →
    breakdown_outcome key title d (inr (), d, [])
| breakdown_done keys vals xs :
    get_col key d = Some keys →
    get_col "population_2023" d = Some vals →
    mapM to_num vals = Some xs →
    breakdown_outcome key title d
      (inr (), d,
       Line title :: breakdown_lines (sort_values_desc (group_sums keys xs)))
| breakdown_failed e :
    has_col key d = true →
    get_col "population_2023" d = None
    ∨ (∃ vals, get_col "population_2023" d = Some vals ∧ mapM to_num vals = None) →
    breakdown_outcome key title d (inl e, d, [Line title]).

Definition statistics_events (xs : list F) : list (event F) :=
  [ Line (nl +:+ "[+] Population Statistics (2023):");
    StatLine Mean xs; StatLine Median xs; StatLine StdDev xs;
    StatLine Min xs; StatLine Max xs ].

Definition loading_line : event F := Line "[*] Loading flamingo population data...".

Definition loaded_events (d : dataframe F) : list (event F) :=
  [ loading_line;
    Line ("[+] Successfully loaded " +:+ pretty (nrows d) +:+ " records");
    Line ("[+] Columns: " +:+ join ", " (column_names d) +:+ nl) ].

Definition report_events : list (event F) :=
  [ Line "[*] Generating analysis report...";
    Line "[+] Saved: outputs/analysis_report.txt" ].

(** What the habitat block prints. *)
Definition habitat_events d : list (event F) :=
  match get_col "habitat_type" d with
  | Some h =>
      Line habitat_title ::
      ((λ hc, HabitatLine hc.1 hc.2
                (fmul (fdiv (of_nat hc.2) (of_nat (nrows d))) (of_nat 100)))
         <$> value_counts h)
  | None => []
  end.

End Outcomes.

(** [open(path, 'w')] succeeds. *)
Definition writable (parent path : string) (fs : gmap string node) : bool :=
  bool_decide (fs !! parent = Some Dir) && negb (bool_decide (fs !! path = Some Dir)).

(** ** Sample tables *)

Definition num (z : Z) : cell xnum := CNum (Fin (Qc_of_Z z)).

(** Three records with every column of the data model. *)
Definition flamingos : dataframe xnum := {|
  nrows := 3;
  columns := [
    ("species", [CStr "Greater"; CStr "Lesser"; CStr "Chilean"]);
    ("region", [CStr "Africa"; CStr "Africa"; CStr "South America"]);
    ("habitat_type", [CStr "Lagoon"; CStr "Salt lake"; CStr "Lagoon"]);
    ("conservation_status", [CStr "LC"; CStr "NT"; CStr "NT"]);
    ("population_2020", [num 100; num 200; num 300]);
    ("population_2023", [num 150; num 180; num 330]) ] |}.

(** [species,region] and one record: no population column. *)
Definition species_only {F : Type} : dataframe F := {|
  nrows := 1;
  columns := [("species", [CStr "Greater"]); ("region", [CStr "Africa"])] |}.


(** The habitat of the second record is missing. *)
Definition missing_habitat : dataframe xnum := {|
  nrows := 2;
  columns := [
    ("species", [CStr "Greater"; CStr "Lesser"]);
    ("habitat_type", [CStr "Lagoon"; CNum NaN]) ] |}.


(** Three records of another kind. *)
Definition three_others : dataframe xnum := {|
  nrows := 3;
  columns := [("name", [CStr "a"; CStr "b"; CStr "c"]); ("weight", [num 1; num 2; num 3])] |}.

(** An instance of the external libraries: the parser reads [flamingos]
    from the file whose text is ["flamingos"] and refuses any other
    text; the p-value is a constant. *)
Global Instance sample_extern : Extern xnum := {|
  parse_csv text :=
    if decide (text = "flamingos") then inr flamingos
    else inl (ParserError "Error tokenizing data");
  shapiro_wilk _ := inr (Fin 1%Qc, Fin 1%Qc);
|}.

Definition sample_render (c : chart xnum) : string :=
  match c with BarH _ => "barh" | Bar _ _ => "bar" end.

(** Another renderer: other bytes for every chart. *)
Definition other_render (c : chart xnum) : string := "other bytes".

Definition sample_files : gmap string node :=
  {[ "data/flamingo_data.csv" := File "flamingos" ]}.

(** ** What a computation does to its state *)

(** Whatever the outcome, the final state is related to the initial one. *)
Definition preserves {F S A} (R : relation S) (m : M F S A) : Prop :=
  ∀ s, R s (m s).1.2.

(** The source columns of [d] are kept in [d']: the rows, every column
    that is not called [growth_rate], the order of the columns; the
    change is an append when [d] has no [growth_rate]. *)
Definition keeps_source {F} (d d' : dataframe F) : Prop :=
  nrows d' = nrows d ∧
  (∀ n, n ≠ "growth_rate" → get_col n d' = get_col n d) ∧
  column_names d `prefix_of` column_names d' ∧
  ("growth_rate" ∉ column_names d → columns d `prefix_of` columns d').

(** The same, for the table of the object. *)
Definition table_grows {F} `{Arith F} (s s' : session F) : Prop :=
  grows (self_df s) (self_df s').

(** ** Two runs *)

(** The paths that the pipeline writes. *)
Definition output_paths : list string :=
  ["outputs"; species_chart; growth_chart; report_path].

(** What the pipeline does to the files: it touches the output paths
    only, and it never turns a path into a directory, [outputs] apart. *)
Definition files_step (fs fs' : gmap string node) : Prop :=
  (∀ p, p ∉ output_paths → fs' !! p = fs !! p) ∧
  (∀ p, p ≠ "outputs" → fs !! p ≠ Some Dir → fs' !! p ≠ Some Dir).

Definition session_files_step {F} (s s' : session F) : Prop :=
  files_step (files s) (files s').

(** [fs'] lets the pipeline write wherever [fs] does. *)
Definition improves (fs fs' : gmap string node) : Prop :=
  fs' !! "outputs" = Some Dir ∧
  (∀ p, p ≠ "outputs" → fs !! p ≠ Some Dir → fs' !! p ≠ Some Dir).

(** Where [m1] returns, [m2] returns the same value, from any state with
    the same table and files that improve on those of [m1]. *)
Definition simulates {F X} (m1 m2 : M F (session F) X) : Prop :=
  ∀ s s', self_df s = self_df s' → improves (files s) (files s') →
  ∀ x s1 o, m1 s = (inr x, s1, o) →
  ∃ s1' o', m2 s' = (inr x, s1', o') ∧
            self_df s1 = self_df s1' ∧ improves (files s1) (files s1').

Section Split.
Context {F : Type} `{Extern F}.

(** [run_full_analysis] up to the charts, and after the report. *)
Definition before_report (render : chart F → string) : M F (session F) unit :=
  print (Line (nl +:+ rule));;
  print (Line "FLAMINGO POPULATION DATA ANALYTICS - FULL ANALYSIS");;
  print (Line (rule +:+ nl));;
  on_table exploratory_analysis;;
  on_table population_analysis;;
  on_table geographic_analysis;;
  on_table conservation_status_analysis;;
  on_table statistical_tests;;
  generate_visualizations render.

Definition closing : M F (session F) unit :=
  print (Line rule);;
  print (Line "ANALYSIS COMPLETE");;
  print (Line (rule +:+ nl));;
  print (Line "[+] All results saved to the 'outputs' directory");;
  print (Line "[+] Generated files:");;
  print (Line "    - species_distribution.png");;
  print (Line "    - growth_rates.png");;
  print (Line ("    - analysis_report.txt" +:+ nl)).

Definition closing_events : list (event F) :=
  [ Line rule; Line "ANALYSIS COMPLETE"; Line (rule +:+ nl);
    Line "[+] All results saved to the 'outputs' directory";
    Line "[+] Generated files:";
    Line "    - species_distribution.png";
    Line "    - growth_rates.png";
    Line ("    - analysis_report.txt" +:+ nl) ].

End Split.

(** ** Frequency counts *)

Section Counts.
Context {F : Type} `{Arith F}.

(** The lines of the conservation status distribution: key and count. *)
Definition status_lines (out : list (event F)) : list (cell F * nat) :=
  omap (λ e, match e with StatusLine k n => Some (k, n) | _ => None end) out.

(** The number of cells of a column that hold [k]. *)
Definition occurrences (k : cell F) (col : list (cell F)) : nat :=
  length (filter (λ c, c = k) col).

Definition status_title : string := nl +:+ "[*] Conservation Status Distribution:".

(** What the conservation status block prints. *)
Definition status_events (d : dataframe F) : list (event F) :=
  match get_col "conservation_status" d with
  | Some c => Line status_title :: ((λ sc, StatusLine sc.1 sc.2) <$> value_counts c)
  | None => []
  end.

End Counts.

(** ** The table of the object *)

(** The table of the object is the same. *)
Definition same_table {F} (s s' : session F) : Prop := self_df s = self_df s'.

(** ** Rounding *)

(** The least and the greatest magnitude of the normal range of binary64. *)
Definition tiny : Q := 1 / inject_Z (2 ^ 1022).
Definition huge : Q := inject_Z (2 ^ 1023).

(** A result in the normal range, or an exact zero: rounding it neither
    overflows nor loses relative accuracy. *)
Definition in_range (q : Q) : Prop := (q == 0 ∨ tiny <= Qabs q <= huge)%Q.

(** The rational number that a finite number stands for; NaN and the
    infinities stand for none. *)
Class Valued (F : Type) := value : F → option Q.

Definition stands_for {F} `{Valued F} (x : F) (q : Q) : Prop :=
  ∃ c, value x = Some c ∧ (c == q)%Q.

(** The standard model of floating-point arithmetic, as far as the
    percentages of a breakdown need it: a division or a multiplication
    whose exact result is in range is rounded with a relative error of at
    most [roundoff] (2^-53 for binary64, which rounds to nearest); whole
    numbers up to 2^53 are represented, and added, exactly (so are the
    int64 sums of a column of whole numbers, and their conversion to
    float64 for the division). *)
Class Rounding (F : Type) `{Arith F, Valued F} (roundoff : Q) : Prop := {
  roundoff_range : (0 <= roundoff <= 1 # 2)%Q;
  value_not_nan (x : F) q : value x = Some q → isnan x = false;
  of_nat_exact n :
    (Z.of_nat n ≤ 2 ^ 53)%Z → stands_for (of_nat n) (inject_Z (Z.of_nat n));
  fadd_exact (x y : F) a b :
    stands_for x (inject_Z a) → stands_for y (inject_Z b) →
    (Z.abs (a + b) ≤ 2 ^ 53)%Z →
    stands_for (fadd x y) (inject_Z (a + b));
  fdiv_round (x y : F) a b :
    stands_for x a → stands_for y b → ¬ (b == 0)%Q → in_range (a / b) →
    ∃ δ, (Qabs δ <= roundoff)%Q ∧ stands_for (fdiv x y) (a / b * (1 + δ));
  fmul_round (x y : F) a b :
    stands_for x a → stands_for y b → in_range (a * b) →
    ∃ δ, (Qabs δ <= roundoff)%Q ∧ stands_for (fmul x y) (a * b * (1 + δ));
}.

Definition Qsum (l : list Q) : Q := foldr Qplus 0%Q l.

Section Tolerance.
Context {F : Type} `{Arith F, Valued F}.

(** The group totals of [lines] are the whole numbers [tots], none of
    them negative. *)
Definition whole_totals (lines : list (cell F * F * F)) (tots : list Z) : Prop :=
  Forall2 (λ l a, stands_for l.1.2 (inject_Z a) ∧ (0 ≤ a)%Z) lines tots.

(** The percentages of [lines] stand for [pcts]. *)
Definition percentages (lines : list (cell F * F * F)) (pcts : list Q) : Prop :=
  Forall2 (λ l p, stands_for l.2 p) lines pcts.


End Tolerance.

(** The exact arithmetic: a finite number stands for itself. *)
Global Instance xnum_valued : Valued xnum := λ x,
  match x with Fin q => Some (this q) | _ => None end.

(** ** binary64 *)

Global Instance spec_float_eq_dec : EqDecision spec_float.
Proof. solve_decision. Defined.

Global Instance float_eq_dec : EqDecision float.
Proof.
  intros x y. destruct (decide (Prim2SF x = Prim2SF y)) as [E|N].
  - left. by apply Prim2SF_inj.
  - right. intros ->. by apply N.
Defined.

(** The arithmetic of numpy's float64, on the primitive floats of Rocq
    (IEEE 754 binary64, rounding to nearest). *)
Global Instance float_arith : Arith float | 10 := {|
  fadd := PrimFloat.add;
  fsub := PrimFloat.sub;
  fmul := PrimFloat.mul;
  fdiv := PrimFloat.div;
  of_nat n := PrimFloat.of_uint63 (Uint63.of_Z (Z.of_nat n));
  isnan := PrimFloat.is_nan;
  fleb := PrimFloat.leb;
|}.

Global Instance float_valued : Valued float | 10 := λ x,
  match Prim2SF x with
  | S754_zero _ => Some 0%Q
  | S754_finite s m e =>
      Some ((if s then -1 else 1) * inject_Z (Z.pos m) * 2 ^ e)%Q
  | _ => None
  end.

(** The unit roundoff of binary64. *)
Definition u64 : Q := 1 # 2 ^ 53.

(** No file is parsed and no test is run in the binary64 examples. *)
Global Instance float_extern : Extern float | 10 := {|
  parse_csv _ := inl (ParserError "no file is read");
  shapiro_wilk _ := inl (ValueError "no test is run");
|}.

Definition fl (z : Z) : cell float := CNum (PrimFloat.of_uint63 (Uint63.of_Z z)).

(** The populations of [flamingos], as float64. *)
Definition flamingos64 : dataframe float := {|
  nrows := 3;
  columns := [
    ("species", [CStr "Greater"; CStr "Lesser"; CStr "Chilean"]);
    ("population_2023", [fl 150; fl 180; fl 330]) ] |}.

(** Two populations of 2^1023, whose sum is beyond the largest float64. *)
Definition overflowing : dataframe float := {|
  nrows := 2;
  columns := [
    ("species", [CStr "Greater"; CStr "Lesser"]);
    ("population_2023", [CNum 0x1p+1023%float; CNum 0x1p+1023%float]) ] |}.

(** [zero_population], as float64. *)
Definition zero_population64 : dataframe float := {|
  nrows := 1;
  columns := [
    ("species", [CStr "Greater"]);
    ("region", [CStr "Africa"]);
    ("population_2023", [fl 0]) ] |}.

(** * Properties *)

(** ** Running a computation *)

Section Running.
Context {F S : Type}.
Implicit Types (s : S) (o : list (event F)).

Lemma emit_pair {A} o (r : exn + A) s o' : emit o (r, s, o') = (r, s, o ++ o').
Proof. reflexivity. Qed.

Lemma emit_nil {A} (r : (exn + A) * S * list (event F)) : emit [] r = r.
Proof. by destruct r as [[??]?]. Qed.

Lemma emit_emit {A} o o' (r : (exn + A) * S * list (event F)) :
  emit o (emit o' r) = emit (o ++ o') r.
Proof. destruct r as [[??]?]. unfold emit; simpl. by rewrite (assoc_L (++)). Qed.


Lemma emit_state {A} o (r : (exn + A) * S * list (event F)) : (emit o r).1.2 = r.1.2.
Proof. reflexivity. Qed.

Lemma bind_inr {A B} (m : M F S A) (f : A → M F S B) s x s1 o1 :
  m s = (inr x, s1, o1) → (m ≫= f) s = emit o1 (f x s1).
Proof. unfold mbind, M_bind. by intros ->. Qed.

Lemma bind_inl {A B} (m : M F S A) (f : A → M F S B) s e s1 o1 :
  m s = (inl e, s1, o1) → (m ≫= f) s = (inl e, s1, o1).
Proof. unfold mbind, M_bind. by intros ->. Qed.

Lemma bind_print {B} e (f : unit → M F S B) s :
  (print e ≫= f) s = emit [e] (f () s).
Proof. reflexivity. Qed.

Lemma bind_ret {A B} (x : A) (f : A → M F S B) s : (mret x ≫= f) s = f x s.
Proof. unfold mbind, M_bind, mret, M_ret. apply emit_nil. Qed.

Lemma bind_get {B} (f : S → M F S B) s : (get ≫= f) s = f s s.
Proof. unfold mbind, M_bind, get. apply emit_nil. Qed.

Lemma bind_put {B} s' (f : unit → M F S B) s : (put s' ≫= f) s = f () s'.
Proof. unfold mbind, M_bind, put. apply emit_nil. Qed.

Lemma bind_raise {A B} e (f : A → M F S B) s :
  (raise e ≫= f) s = (inl e, s, []).
Proof. reflexivity. Qed.

Lemma bind_assoc {A B C} (m : M F S A) (f : A → M F S B) (g : B → M F S C) s :
  ((m ≫= f) ≫= g) s = (m ≫= λ x, f x ≫= g) s.
Proof.
  unfold mbind, M_bind. destruct (m s) as [[[e|x] s1] o1]; [done|].
  destruct (f x s1) as [[[e|y] s2] o2]; simpl; [done|].
  destruct (g y s2) as [[r s3] o3]. unfold emit; simpl.
  by rewrite (assoc_L (++)).
Qed.

Lemma bind_when_true {B} (body : M F S unit) (f : unit → M F S B) s :
  (when true body ≫= f) s = (body ≫= f) s.
Proof. reflexivity. Qed.

Lemma bind_when_false {B} (body : M F S unit) (f : unit → M F S B) s :
  (when false body ≫= f) s = f () s.
Proof. unfold when. apply bind_ret. Qed.

Lemma for_each_print {A} (l : list A) (g : A → event F) s :
  for_each l (λ x, print (g x)) s = (inr (), s, g <$> l).
Proof.
  induction l as [|x l IH]; [done|]. simpl.
  rewrite bind_print, IH. reflexivity.
Qed.

End Running.

Section MoreRunning.
Context {F S : Type}.

Lemma bind_unfold {A B} (m : M F S A) (f : A → M F S B) (s : S) :
  (m ≫= f) s = match m s with
               | (inl e, s1, o1) => (inl e, s1, o1)
               | (inr x, s1, o1) => emit o1 (f x s1)
               end.
Proof. reflexivity. Qed.

Lemma bind_ret_r {A} (m : M F S A) (s : S) : (m ≫= mret) s = m s.
Proof.
  unfold mbind, M_bind. destruct (m s) as [[[e|x] s1] o1]; [done|].
  unfold mret, M_ret, emit; simpl. by rewrite (right_id_L [] (++)).
Qed.

Lemma bind_for_each_print {A B} (l : list A) (g : A → event F)
    (f : unit → M F S B) (s : S) :
  (for_each l (λ x, print (g x)) ≫= f) s = emit (g <$> l) (f () s).
Proof. apply bind_inr, for_each_print. Qed.

End MoreRunning.

(** The rewriting steps of a symbolic run. *)
Ltac run_step :=
  first [ rewrite bind_assoc | rewrite bind_print | rewrite bind_get
        | rewrite bind_ret | rewrite bind_put | rewrite bind_raise
        | rewrite bind_when_true | rewrite bind_when_false
        | rewrite bind_for_each_print
        | rewrite emit_emit | rewrite emit_pair ].
Ltac run := cbv beta; repeat (run_step; cbv beta).

(** ** Columns *)

Section Columns.
Context {F : Type} `{Arith F}.
Implicit Types (d : dataframe F) (c : list (cell F)).

Lemma alist_get_set_eq {A} n (a : A) l : alist_get n (alist_set n a l) = Some a.
Proof.
  induction l as [|[m b] l IH]; simpl.
  - by rewrite decide_True.
  - destruct (decide (m = n)) as [->|Hne]; simpl.
    + by rewrite decide_True.
    + by rewrite decide_False.
Qed.

Lemma alist_get_set_ne {A} n m (a : A) l :
  n ≠ m → alist_get m (alist_set n a l) = alist_get m l.
Proof.
  intros Hne. induction l as [|[k b] l IH]; simpl.
  - by rewrite decide_False.
  - destruct (decide (k = n)) as [->|Hk]; simpl.
    + by rewrite !decide_False.
    + by rewrite IH.
Qed.

Lemma alist_get_Some_elem {A} n (l : list (string * A)) a :
  alist_get n l = Some a → (n, a) ∈ l.
Proof.
  induction l as [|[m b] l IH]; simpl; [done|].
  destruct (decide (m = n)) as [->|].
  - intros [= ->]. left.
  - intros. right. auto.
Qed.

Lemma alist_get_is_Some {A} n (l : list (string * A)) :
  is_Some (alist_get n l) ↔ n ∈ l.*1.
Proof.
  induction l as [|[m b] l IH]; simpl.
  - rewrite elem_of_nil. split; [by intros [??]|done].
  - rewrite elem_of_cons. destruct (decide (m = n)) as [->|Hne].
    + split; eauto.
    + rewrite IH. split; [by right|]. by intros [?|?]; [congruence|].
Qed.

Lemma alist_set_fresh {A} n (a : A) l :
  n ∉ l.*1 → alist_set n a l = l ++ [(n, a)].
Proof.
  induction l as [|[m b] l IH]; simpl; [done|].
  rewrite not_elem_of_cons. intros [Hne Hl].
  rewrite decide_False by done. by rewrite IH.
Qed.

Lemma alist_set_names {A} n (a : A) l :
  n ∈ l.*1 → (alist_set n a l).*1 = l.*1.
Proof.
  induction l as [|[m b] l IH]; simpl.
  - by rewrite elem_of_nil.
  - destruct (decide (m = n)) as [->|Hne]; simpl; [done|].
    rewrite elem_of_cons. intros [?|?]; [congruence|]. f_equal. by apply IH.
Qed.

Lemma alist_set_set {A} n (a b : A) l :
  alist_set n a (alist_set n b l) = alist_set n a l.
Proof.
  induction l as [|[m c] l IH]; simpl.
  - by rewrite decide_True.
  - destruct (decide (m = n)) as [->|Hne]; simpl.
    + by rewrite decide_True.
    + by rewrite decide_False, IH.
Qed.

Lemma has_col_true n d : has_col n d = true ↔ is_Some (get_col n d).
Proof.
  unfold has_col, get_col, column_names.
  by rewrite bool_decide_eq_true, alist_get_is_Some.
Qed.

Lemma has_col_false n d : has_col n d = false ↔ get_col n d = None.
Proof.
  rewrite <-not_true_iff_false, has_col_true, eq_None_not_Some. done.
Qed.

Lemma get_col_set_eq n c d : get_col n (set_col n c d) = Some c.
Proof. apply alist_get_set_eq. Qed.

Lemma get_col_set_ne n m c d : n ≠ m → get_col m (set_col n c d) = get_col m d.
Proof. apply alist_get_set_ne. Qed.


Lemma get_col_length n c d : wf d → get_col n d = Some c → length c = nrows d.
Proof.
  intros [Hlen _] Hc. apply alist_get_Some_elem in Hc.
  by apply (proj1 (Forall_forall _ _) Hlen (n, c)).
Qed.

Lemma mapM_to_num_CNum (xs : list F) : mapM to_num (CNum <$> xs) = Some xs.
Proof.
  apply mapM_Some_2. induction xs; constructor; done.
Qed.

Lemma mapM_to_num_is_num c :
  Forall (λ x, is_num x = true) c → ∃ xs, mapM to_num c = Some xs ∧ c = CNum <$> xs.
Proof.
  induction 1 as [|[x|s] c Hx _ [xs [IH ->]]]; simpl in *; [by exists []| |done].
  exists (x :: xs). by rewrite IH.
Qed.

Lemma mapM_to_num_Some c xs : mapM to_num c = Some xs → c = CNum <$> xs.
Proof.
  revert xs. induction c as [|[x|s] c IH]; intros xs; simpl.
  - by intros [= <-].
  - destruct (mapM to_num c) as [ys|] eqn:E; simpl; [|done].
    intros [= <-]. by rewrite (IH ys).
  - done.
Qed.

End Columns.

(** ** The analysis methods, run *)

Section AnalysisRuns.
Context {F : Type} `{Extern F}.
Implicit Types (d : dataframe F) (c : list (cell F)).

Local Abbreviation A := (M F (dataframe F)).

Lemma banner_run {B} t (f : unit → A B) d :
  (banner t ≫= f) d = emit [Line rule; Line t; Line rule] (f () d).
Proof. unfold banner. by run. Qed.

Lemma column_run {B} n c (f : list (cell F) → A B) d :
  get_col n d = Some c → (column n ≫= f) d = f c d.
Proof. intros Hc. unfold column. run. rewrite Hc. by run. Qed.

Lemma column_fail {B} n (f : list (cell F) → A B) d :
  get_col n d = None → (column n ≫= f) d = (inl (KeyError n), d, []).
Proof. intros Hc. unfold column. run. rewrite Hc. by run. Qed.

Lemma grouped_column_run {B} n c (f : list (cell F) → A B) d :
  get_col n d = Some c → (grouped_column n ≫= f) d = f c d.
Proof. intros Hc. unfold grouped_column. run. rewrite Hc. by run. Qed.

Lemma grouped_column_fail {B} n (f : list (cell F) → A B) d :
  get_col n d = None →
  (grouped_column n ≫= f) d = (inl (KeyError ("Column not found: " +:+ n)), d, []).
Proof. intros Hc. unfold grouped_column. run. rewrite Hc. by run. Qed.

Lemma numeric_run {B} c xs (f : list F → A B) d :
  mapM to_num c = Some xs → (numeric c ≫= f) d = f xs d.
Proof. intros Hc. unfold numeric. rewrite Hc. by run. Qed.

Lemma numeric_fail {B} c (f : list F → A B) d :
  mapM to_num c = None →
  (numeric c ≫= f) d = (inl (TypeError "unsupported operand type(s): 'str'"), d, []).
Proof. intros Hc. unfold numeric. rewrite Hc. by run. Qed.

Lemma assign_run {B} n c (f : unit → A B) d :
  (assign n c ≫= f) d = f () (set_col n c d).
Proof. unfold assign. by run. Qed.

Lemma breakdown_run {B} key keys vals xs (f : unit → A B) d :
  get_col key d = Some keys →
  get_col "population_2023" d = Some vals →
  mapM to_num vals = Some xs →
  (breakdown key ≫= f) d
  = emit (breakdown_lines (sort_values_desc (group_sums keys xs))) (f () d).
Proof.
  intros Hk Hv Hx. unfold breakdown. run.
  rewrite (column_run _ _ _ _ Hk); run.
  rewrite (grouped_column_run _ _ _ _ Hv); run.
  rewrite (numeric_run _ _ _ _ Hx). by run.
Qed.

(** The three ways in which a breakdown stops. *)
Lemma breakdown_fail {B} key (f : unit → A B) d :
  get_col key d = None ∨ get_col "population_2023" d = None
  ∨ (∃ vals, get_col "population_2023" d = Some vals ∧ mapM to_num vals = None) →
  ∃ e, (breakdown key ≫= f) d = (inl e, d, []).
Proof.
  unfold breakdown. intros Hfail. run.
  destruct (get_col key d) as [keys|] eqn:Hk.
  2:{ rewrite (column_fail _ _ _ Hk). eauto. }
  rewrite (column_run _ _ _ _ Hk); run.
  destruct Hfail as [?|[Hv|(vals & Hv & Hx)]]; [done| |].
  - rewrite (grouped_column_fail _ _ _ Hv). eauto.
  - rewrite (grouped_column_run _ _ _ _ Hv); run.
    rewrite (numeric_fail _ _ _ Hx). eauto.
Qed.

End AnalysisRuns.

Section Blocks.
Context {F : Type} `{Extern F}.
Implicit Types (d : dataframe F) (c : list (cell F)).

Local Abbreviation A := (M F (dataframe F)).

Lemma growth_block_run {B} c23 c20 p23 p20 (f : unit → A B) d :
  get_col "population_2023" d = Some c23 →
  get_col "population_2020" d = Some c20 →
  mapM to_num c23 = Some p23 →
  mapM to_num c20 = Some p20 →
  ¬ (c23 = [] ∧ c20 = []) →
  (growth_block ≫= f) d
  = emit (growth_events p23 p20)
         (f () (set_col "growth_rate" (CNum <$> zip_with growth p23 p20) d)).
Proof.
  intros H23 H20 N23 N20 Hrows. unfold growth_block. run.
  rewrite (column_run _ _ _ _ H23); run.
  rewrite (column_run _ _ _ _ H20); run.
  rewrite (numeric_run _ _ _ _ N23); run.
  rewrite (numeric_run _ _ _ _ N20); run.
  rewrite assign_run; run.
  rewrite (column_run _ _ _ _ (get_col_set_eq _ _ _)); run.
  rewrite (numeric_run _ _ _ _ (mapM_to_num_CNum _)). run.
  unfold overall_growth. rewrite decide_False by done. by run.
Qed.

(** On a table without rows the block stops at the overall growth, after
    it has assigned the (empty) growth rates. *)
Lemma growth_block_no_rows {B} (f : unit → A B) d :
  get_col "population_2023" d = Some [] →
  get_col "population_2020" d = Some [] →
  (growth_block ≫= f) d
  = (inl (ZeroDivisionError "division by zero"), set_col "growth_rate" [] d,
     [ AvgGrowth (nanmean []); TotalPopulation "2020" (nansum []);
       TotalPopulation "2023" (nansum []) ]).
Proof.
  intros H23 H20. unfold growth_block. run.
  rewrite (column_run _ _ _ _ H23); run.
  rewrite (column_run _ _ _ _ H20); run.
  rewrite (numeric_run [] [] _ _ eq_refl); run.
  rewrite (numeric_run [] [] _ _ eq_refl); run.
  rewrite assign_run; run.
  rewrite (column_run _ _ _ _ (get_col_set_eq _ _ _)); run.
  change (CNum <$> zip_with growth [] []) with (@nil (cell F)).
  rewrite (numeric_run [] [] _ _ eq_refl). run.
  unfold overall_growth. rewrite decide_True by done. by run.
Qed.

Lemma growth_block_fail {B} c23 c20 (f : unit → A B) d :
  get_col "population_2023" d = Some c23 →
  get_col "population_2020" d = Some c20 →
  mapM to_num c23 = None ∨ mapM to_num c20 = None →
  ∃ e, (growth_block ≫= f) d = (inl e, d, []).
Proof.
  intros H23 H20 Hfail. unfold growth_block. run.
  rewrite (column_run _ _ _ _ H23); run.
  rewrite (column_run _ _ _ _ H20); run.
  destruct (mapM to_num c23) as [p23|] eqn:N23.
  2:{ rewrite (numeric_fail _ _ _ N23). eauto. }
  rewrite (numeric_run _ _ _ _ N23); run.
  destruct Hfail as [?|N20]; [done|].
  rewrite (numeric_fail _ _ _ N20). eauto.
Qed.

Lemma growth_guard d :
  growth_outcome d
    (when (has_col "population_2020" d && has_col "population_2023" d)
       growth_block d).
Proof.
  destruct (has_col "population_2020" d && has_col "population_2023" d) eqn:G.
  - apply andb_true_iff in G as [G20 G23].
    apply has_col_true in G20 as [c20 H20]. apply has_col_true in G23 as [c23 H23].
    simpl. rewrite <-bind_ret_r.
    destruct (mapM to_num c23) as [p23|] eqn:N23.
    + destruct (mapM to_num c20) as [p20|] eqn:N20.
      * destruct (decide (c23 = [] ∧ c20 = [])) as [[-> ->]|Hrows].
        { rewrite (growth_block_no_rows _ _ H23 H20). by constructor. }
        rewrite (growth_block_run _ _ _ _ _ _ H23 H20 N23 N20 Hrows). run.
        unfold mret, M_ret. rewrite emit_pair, (right_id_L [] (++)).
        by econstructor.
      * destruct (growth_block_fail c23 c20 mret d H23 H20) as [e ->]; [by right|].
        by econstructor; eauto.
    + destruct (growth_block_fail c23 c20 mret d H23 H20) as [e ->]; [by left|].
      by econstructor; eauto.
  - simpl. by constructor.
Qed.

Lemma breakdown_guard key title d :
  breakdown_outcome key title d
    (when (has_col key d) (print (Line title);; breakdown key) d).
Proof.
  destruct (has_col key d) eqn:G; simpl; [|by constructor].
  pose proof G as G'. apply has_col_true in G' as [keys Hk].
  rewrite bind_print, <-bind_ret_r.
  destruct (get_col "population_2023" d) as [vals|] eqn:Hv.
  - destruct (mapM to_num vals) as [xs|] eqn:Hx.
    + rewrite (breakdown_run _ _ _ _ _ _ Hk Hv Hx). run.
      unfold mret, M_ret. rewrite emit_pair, (right_id_L [] (++)). simpl.
      by econstructor.
    + destruct (breakdown_fail key mret d) as [e ->]; [eauto 6|].
      rewrite emit_pair. simpl. constructor; eauto.
  - destruct (breakdown_fail key mret d) as [e ->]; [eauto|].
    rewrite emit_pair. simpl. constructor; eauto.
Qed.

End Blocks.

Section PopulationAnalysis.
Context {F : Type} `{Extern F}.
Implicit Types (d : dataframe F) (c : list (cell F)).

(** [population_analysis] is the growth-rate block, then the species
    breakdown, each under its guard. *)
Lemma population_analysis_cases d :
  ∃ r1, growth_outcome d r1 ∧
    match r1 with
    | (inl e, d1, o1) =>
        population_analysis d
        = (inl e, d1, banner_lines "POPULATION ANALYSIS" ++ o1)
    | (inr _, d1, o1) =>
        ∃ r2, breakdown_outcome "species" species_title d1 r2 ∧
          match r2 with
          | (inl e, d2, o2) =>
              population_analysis d
              = (inl e, d2, banner_lines "POPULATION ANALYSIS" ++ o1 ++ o2)
          | (inr _, d2, o2) =>
              population_analysis d
              = (inr (), d2,
                 banner_lines "POPULATION ANALYSIS" ++ o1 ++ o2 ++ [Line nl])
          end
    end.
Proof.
  exists (when (has_col "population_2020" d && has_col "population_2023" d)
            growth_block d).
  split; [apply growth_guard|].
  unfold population_analysis. rewrite banner_run; run.
  rewrite (bind_unfold (when _ _)).
  destruct (when _ growth_block d) as [[[e|[]] d1] o1]; [done|]. run.
  exists (when (has_col "species" d1)
            (print (Line species_title);; breakdown "species") d1).
  split; [apply breakdown_guard|].
  rewrite (bind_unfold (when _ _)). fold species_title.
  destruct (when (has_col "species" d1) _ d1) as [[[e|[]] d2] o2].
  - by rewrite !emit_pair.
  - unfold print. by rewrite !emit_pair.
Qed.

End PopulationAnalysis.

(** ** The lines of the two breakdowns *)

Section Lines.
Context {F : Type} `{Extern F}.
Implicit Types (d : dataframe F) (c : list (cell F)).

Lemma habitat_lines_app (o1 o2 : list (event F)) :
  habitat_lines (o1 ++ o2) = habitat_lines o1 ++ habitat_lines o2.
Proof. apply omap_app. Qed.


Lemma habitat_lines_breakdown pop : habitat_lines (breakdown_lines pop) = [].
Proof.
  unfold breakdown_lines. generalize (nansum pop.*2). intros t.
  by induction pop.
Qed.


Lemma habitat_lines_events d h :
  get_col "habitat_type" d = Some h →
  (habitat_lines (habitat_events d)).*1 = value_counts h.
Proof.
  unfold habitat_events. intros ->. simpl.
  induction (value_counts h) as [|[k n] l IH]; simpl; [done|].
  f_equal. exact IH.
Qed.


(** [geographic_analysis] is the region breakdown, then the habitat
    block, which cannot fail. *)
Lemma geographic_analysis_cases d :
  ∃ r1, breakdown_outcome "region" region_title d r1 ∧
    match r1 with
    | (inl e, d1, o1) =>
        geographic_analysis d
        = (inl e, d1, banner_lines "GEOGRAPHIC DISTRIBUTION ANALYSIS" ++ o1)
    | (inr _, d1, o1) =>
        geographic_analysis d
        = (inr (), d1,
           banner_lines "GEOGRAPHIC DISTRIBUTION ANALYSIS" ++ o1
           ++ habitat_events d ++ [Line nl])
    end.
Proof.
  exists (when (has_col "region" d)
            (print (Line region_title);; breakdown "region") d).
  pose proof (breakdown_guard "region" region_title d) as B.
  split; [done|].
  unfold geographic_analysis. rewrite banner_run; run.
  rewrite (bind_unfold (when _ _)). fold region_title.
  destruct (when (has_col "region" d) _ d) as [[[e|[]] d1] o1]; [done|].
  assert (d1 = d) as -> by (by inversion B).
  unfold habitat_events.
  destruct (has_col "habitat_type" d) eqn:G.
  - apply has_col_true in G as [h Hh]. rewrite Hh. run.
    rewrite (column_run _ _ _ _ Hh); run. unfold print.
    rewrite !emit_pair, <-!(assoc_L (++)). done.
  - apply has_col_false in G. rewrite G. run. unfold print.
    rewrite !emit_pair, <-!(assoc_L (++)). done.
Qed.

(** The growth-rate block, when it returns: it prints no line of a
    breakdown and keeps the rows and every column but [growth_rate]. *)
Lemma growth_outcome_inr d d1 o1 :
  growth_outcome d (inr (), d1, o1) →
  group_lines o1 = [] ∧ nrows d1 = nrows d ∧
  ∀ n, n ≠ "growth_rate" → get_col n d1 = get_col n d.
Proof.
  inversion 1 as [G0|c23 c20 p23 p20 H23 H20 N23 N20 Hrows| |]; subst; [done|].
  split_and!; try done. intros n Hn. by apply get_col_set_ne.
Qed.

(** The growth-rate block returns when it has nothing to do or numbers
    to work on, in a table that has a row. *)
Lemma growth_outcome_returns d r1 :
  growth_outcome d r1 →
  wf d →
  numeric_col "population_2023" d →
  has_col "population_2020" d = false
  ∨ (numeric_col "population_2020" d ∧ 0 < nrows d) →
  ∃ d1 o1, r1 = (inr (), d1, o1).
Proof.
  intros G Hwf (c23 & H23 & N23) H20.
  inversion G as [G0|?????????|H23' H20'|c23' c20' e H23' H20' Hfail]; subst r1;
    [by eexists _, _..| |].
  - destruct H20 as [H20|[_ Hrows]].
    { apply has_col_false in H20. congruence. }
    apply (get_col_length _ _ _ Hwf) in H20'. simpl in H20'. lia.
  - destruct H20 as [H20|[(c20 & H20 & N20) _]].
    { apply has_col_false in H20. congruence. }
    apply mapM_to_num_is_num in N20 as (? & ? & ->).
    apply mapM_to_num_is_num in N23 as (? & ? & ->).
    destruct Hfail; congruence.
Qed.


Lemma breakdown_outcome_returns key title d r2 :
  breakdown_outcome key title d r2 →
  has_col key d = false ∨ numeric_col "population_2023" d →
  ∃ o2, r2 = (inr (), d, o2).
Proof.
  intros B Hv.
  inversion B as [B0|keys vals xs Hk' Hv' Hx'|e Hs Hfail]; subst r2;
    [by eexists..|].
  destruct Hv as [?|(c & Hc & N)]; [congruence|].
  apply mapM_to_num_is_num in N as (? & ? & ->).
  destruct Hfail as [?|(vals & ? & ?)]; congruence.
Qed.

(** [population_analysis] returns on numeric populations, when the
    table has a row or no [population_2020]. *)
Lemma population_analysis_returns d :
  wf d →
  numeric_col "population_2023" d →
  has_col "population_2020" d = false
  ∨ (numeric_col "population_2020" d ∧ 0 < nrows d) →
  ∃ d' out, population_analysis d = (inr (), d', out).
Proof.
  intros Hwf H23 H20.
  destruct (population_analysis_cases d) as (r1 & G & Hrun).
  destruct (growth_outcome_returns d r1 G Hwf H23 H20) as (d1 & o1 & ->).
  destruct Hrun as (r2 & B & Hrun).
  apply growth_outcome_inr in G as (_ & _ & Hsame).
  destruct (breakdown_outcome_returns _ _ _ _ B) as [o2 ->]; [|by eexists _, _].
  right. destruct H23 as (c & Hc & N). exists c. by rewrite Hsame.
Qed.

(** [geographic_analysis] returns when there is no region or the
    population is numeric. *)
Lemma geographic_analysis_returns d :
  has_col "region" d = false ∨ numeric_col "population_2023" d →
  ∃ d' out, geographic_analysis d = (inr (), d', out).
Proof.
  intros Hv. destruct (geographic_analysis_cases d) as (r1 & B & Hrun).
  destruct (breakdown_outcome_returns _ _ _ _ B Hv) as [o1 ->].
  by eexists _, _.
Qed.

(** What a run of [population_analysis] that returned did when both
    population columns were there. *)
Lemma population_analysis_growth d d' out :
  population_analysis d = (inr (), d', out) →
  has_col "population_2020" d = true →
  has_col "population_2023" d = true →
  ∃ p23 p20,
    get_col "population_2023" d = Some (CNum <$> p23) ∧
    get_col "population_2020" d = Some (CNum <$> p20) ∧
    d' = set_col "growth_rate" (CNum <$> zip_with growth p23 p20) d.
Proof.
  intros Hrun' G20 G23.
  destruct (population_analysis_cases d) as (r1 & G & Hrun).
  destruct r1 as [[[e|[]] d1] o1]; [congruence|].
  destruct Hrun as (r2 & B & Hrun).
  destruct r2 as [[[e|[]] d2] o2]; [congruence|].
  assert (d2 = d1) as -> by (by inversion B).
  rewrite Hrun in Hrun'. simplify_eq.
  inversion G as [G0|c23 c20 p23 p20 H23 H20 N23 N20 Hrows| |]; subst.
  { by rewrite G20, G23 in G0. }
  exists p23, p20.
  by rewrite <-(mapM_to_num_Some _ _ N23), <-(mapM_to_num_Some _ _ N20).
Qed.



(** The habitat lines of a run of [geographic_analysis] that returned. *)
Lemma geographic_analysis_habitat_lines d d' out :
  geographic_analysis d = (inr (), d', out) →
  habitat_lines out = habitat_lines (habitat_events d).
Proof.
  intros Hrun'.
  destruct (geographic_analysis_cases d) as (r1 & B & Hrun).
  destruct r1 as [[[e|[]] d1] o1]; [congruence|].
  rewrite Hrun in Hrun'. simplify_eq.
  assert (habitat_lines o1 = []) as Ho1.
  { inversion B; subst; [done|]. simpl. apply habitat_lines_breakdown. }
  rewrite !habitat_lines_app, Ho1. simpl. by rewrite (right_id_L [] (++)).
Qed.

End Lines.

(** ** The growth rate *)

Section GrowthRate.
Context {F : Type} `{Extern F}.
Implicit Types (d : dataframe F) (c : list (cell F)).

(** C1.  On a table that has the two population columns, whenever
    [population_analysis] returns, the table it leaves has a
    [growth_rate] column with one cell for each row, which holds
    [(population_2023 - population_2020) / population_2020 * 100] computed
    from the two cells of that row, and the two population columns are
    the ones the table had.  The method does return when the two columns
    are numeric and the table has a row; on a table without rows it has
    assigned the empty column when line 98 raises [ZeroDivisionError]. *)
Theorem C1_growth_rate_formula d :
  wf d →
  has_col "population_2020" d = true →
  has_col "population_2023" d = true →
  (∀ d' out,
     population_analysis d = (inr (), d', out) →
     ∃ c20 c23 g,
       get_col "population_2020" d = Some c20 ∧
       get_col "population_2020" d' = Some c20 ∧
       get_col "population_2023" d = Some c23 ∧
       get_col "population_2023" d' = Some c23 ∧
       get_col "growth_rate" d' = Some g ∧
       length g = nrows d' ∧
       ∀ i, i < nrows d' →
         ∃ a b, c20 !! i = Some (CNum a) ∧ c23 !! i = Some (CNum b) ∧
                g !! i = Some (CNum (fmul (fdiv (fsub b a) a) (of_nat 100))))
  ∧ (numeric_col "population_2020" d → numeric_col "population_2023" d →
     0 < nrows d →
     ∃ d' out, population_analysis d = (inr (), d', out))
  ∧ (nrows d = 0 →
     population_analysis d
     = (inl (ZeroDivisionError "division by zero"), set_col "growth_rate" [] d,
        banner_lines "POPULATION ANALYSIS"
        ++ [ AvgGrowth (nanmean []); TotalPopulation "2020" (nansum []);
             TotalPopulation "2023" (nansum []) ])).
Proof.
  intros Hwf G20 G23. split_and!.
  2:{ intros N20 N23 Hrows. apply population_analysis_returns; auto. }
  2:{ intros Hrows.
      pose proof G20 as [c20 H20]%has_col_true.
      pose proof G23 as [c23 H23]%has_col_true.
      pose proof (get_col_length _ _ _ Hwf H20) as L20.
      pose proof (get_col_length _ _ _ Hwf H23) as L23.
      rewrite Hrows in L20, L23.
      apply nil_length_inv in L20 as ->. apply nil_length_inv in L23 as ->.
      unfold population_analysis. rewrite banner_run; run.
      rewrite G20, G23. simpl. run.
      by rewrite (growth_block_no_rows _ _ H23 H20). }
  intros d' out Hrun.
  destruct (population_analysis_growth d d' out Hrun G20 G23)
    as (p23 & p20 & H23 & H20 & ->).
  pose proof (get_col_length _ _ _ Hwf H20) as L20.
  pose proof (get_col_length _ _ _ Hwf H23) as L23.
  rewrite length_fmap in L20, L23.
  set (g := CNum <$> zip_with growth p23 p20).
  exists (CNum <$> p20), (CNum <$> p23), g.
  split_and!; try done.
  - by rewrite get_col_set_ne.
  - by rewrite get_col_set_ne.
  - apply get_col_set_eq.
  - unfold g. simpl. rewrite length_fmap, length_zip_with. lia.
  - simpl. intros i Hi.
    destruct (lookup_lt_is_Some_2 p20 i) as [a Ha]; [lia|].
    destruct (lookup_lt_is_Some_2 p23 i) as [b Hb]; [lia|].
    exists a, b. unfold g.
    rewrite !list_lookup_fmap, lookup_zip_with, Ha, Hb. done.
Qed.

End GrowthRate.


Lemma C1_growth_rate_formula_witness :
  ∃ d' out c20 c23 g,
    population_analysis flamingos = (inr (), d', out) ∧
    get_col "population_2020" d' = Some c20 ∧
    get_col "population_2023" d' = Some c23 ∧
    get_col "growth_rate" d' = Some g ∧
    length g = nrows d' ∧
    ∀ i, i < nrows d' →
      ∃ a b, c20 !! i = Some (CNum a) ∧ c23 !! i = Some (CNum b) ∧
             g !! i = Some (CNum (fmul (fdiv (fsub b a) a) (of_nat 100))).
Proof.
  destruct (C1_growth_rate_formula flamingos) as (Hrows & Hreturns & _).
  - split; [repeat constructor|].
    apply (bool_decide_unpack _). vm_compute. exact I.
  - reflexivity.
  - reflexivity.
  - destruct Hreturns as (d' & out & Hrun).
    + eexists. split; [reflexivity|]. repeat constructor.
    + eexists. split; [reflexivity|]. repeat constructor.
    + simpl. lia.
    + destruct (Hrows d' out Hrun)
        as (c20 & c23 & g & _ & H20 & _ & H23 & Hg & Hlen & Hformula).
      by exists d', out, c20, c23, g.
Defined.

(** The run on [flamingos] does return, with growth rates 50, -10, 10. *)
Example flamingos_growth_rate :
  ∃ d' out,
    population_analysis flamingos = (inr (), d', out) ∧
    get_col "growth_rate" d' = Some [num 50; num (-10); num 10].
Proof.
  eexists _, _. split; [vm_compute; reflexivity|].
  vm_compute. repeat (f_equal; try by apply Qc_is_canon).
Qed.

(** ** A population column that is missing *)

Section MissingColumn.
Context {F : Type} `{Extern F}.

(** C2.  On a table with [species] and [region] but no [population_2023],
    the species breakdown of [population_analysis] and the region
    breakdown of [geographic_analysis] raise [KeyError] after printing
    their title: the guard tests the key column only. *)
Theorem C2_missing_population_2023_raises :
  population_analysis (species_only (F:=F))
  = (inl (KeyError "Column not found: population_2023"), species_only,
     banner_lines "POPULATION ANALYSIS" ++ [Line species_title])
  ∧ geographic_analysis (species_only (F:=F))
  = (inl (KeyError "Column not found: population_2023"), species_only,
     banner_lines "GEOGRAPHIC DISTRIBUTION ANALYSIS" ++ [Line region_title]).
Proof. split; reflexivity. Qed.

End MissingColumn.

(** ** The habitat distribution *)

Section Habitat.
Context {F : Type} `{Extern F}.
Implicit Types (d : dataframe F) (c : list (cell F)).

Lemma sum_accumulate_S (k : cell F) acc :
  sum_list_with snd (accumulate S 0 k acc) = S (sum_list_with snd acc).
Proof.
  induction acc as [|[k' n] acc IH]; simpl; [done|].
  destruct (decide (k' = k)); simpl; [done|]. rewrite IH. lia.
Qed.

Lemma sum_count_fold c acc :
  sum_list_with snd (foldl count_step acc c)
  = sum_list_with snd acc + length (filter (λ k, isnull k = false) c).
Proof.
  revert acc. induction c as [|k c IH]; intros acc; simpl; [lia|].
  rewrite IH, filter_cons. unfold count_step at 1.
  destruct (isnull k) eqn:Hk.
  - rewrite decide_False by done. done.
  - rewrite decide_True by done. rewrite sum_accumulate_S. simpl. lia.
Qed.

(** The counts of [value_counts] add up to the number of cells that are
    not missing. *)
Lemma sum_value_counts c :
  sum_list_with snd (value_counts c) = length (filter (λ k, isnull k = false) c).
Proof.
  unfold value_counts. rewrite merge_sort_Permutation. by rewrite sum_count_fold.
Qed.

Lemma filter_notnull_all c :
  Forall (λ k, isnull k = false) c → filter (λ k, isnull k = false) c = c.
Proof.
  induction 1 as [|k c Hk _ IH]; [done|].
  by rewrite filter_cons_True, IH.
Qed.

(** C4, as the code has it.  Whenever [geographic_analysis] returns on a
    table with a [habitat_type] column, the record counts it prints for
    the habitats add up to the number of rows whose [habitat_type] is not
    missing; that is the number of rows when no habitat is missing.  The
    method does return when there is no [region] column or
    [population_2023] is numeric. *)
Theorem C4_habitat_counts_sum d h :
  wf d →
  get_col "habitat_type" d = Some h →
  (∀ d' out,
     geographic_analysis d = (inr (), d', out) →
     sum_list_with (λ l, l.1.2) (habitat_lines out)
     = length (filter (λ k, isnull k = false) h) ∧
     (Forall (λ k, isnull k = false) h →
      sum_list_with (λ l, l.1.2) (habitat_lines out) = nrows d))
  ∧ (has_col "region" d = false ∨ numeric_col "population_2023" d →
     ∃ d' out, geographic_analysis d = (inr (), d', out)).
Proof.
  intros Hwf Hh. split; [|apply geographic_analysis_returns].
  intros d' out Hrun.
  rewrite (geographic_analysis_habitat_lines _ _ _ Hrun).
  assert (sum_list_with (λ l, l.1.2) (habitat_lines (habitat_events d))
          = length (filter (λ k, isnull k = false) h)) as Hsum.
  { rewrite <-(sum_value_counts h), <-(habitat_lines_events d h Hh).
    generalize (habitat_lines (habitat_events d)). intros l.
    induction l as [|x l IH]; simpl; [done|]. by rewrite IH. }
  split; [done|]. intros Hall. rewrite Hsum.
  by rewrite (filter_notnull_all h Hall), (get_col_length _ _ _ Hwf Hh).
Qed.

End Habitat.

Lemma C4_habitat_counts_sum_witness :
  ∃ d' out,
    geographic_analysis flamingos = (inr (), d', out) ∧
    sum_list_with (λ l, l.1.2) (habitat_lines out) = nrows flamingos.
Proof.
  destruct (C4_habitat_counts_sum flamingos
              [CStr "Lagoon"; CStr "Salt lake"; CStr "Lagoon"])
    as [Hsum Hreturns].
  - split; [repeat constructor|].
    apply (bool_decide_unpack _). vm_compute. exact I.
  - reflexivity.
  - destruct Hreturns as (d' & out & Hrun).
    + right. eexists. split; [reflexivity|]. repeat constructor.
    + exists d', out. split; [exact Hrun|].
      apply (Hsum d' out Hrun). repeat constructor.
Defined.

(** On [flamingos] the run returns and counts 2 + 1 = 3 records. *)
Example flamingos_habitat_counts :
  ∃ d' out,
    geographic_analysis flamingos = (inr (), d', out) ∧
    (habitat_lines out).*1 = [(CStr "Lagoon", 2); (CStr "Salt lake", 1)].
Proof. eexists _, _. split; [vm_compute; reflexivity|]. reflexivity. Qed.

(** C4 as stated fails when a habitat is missing: [value_counts] drops
    the record, so one record is counted out of two. *)
Lemma C4_counterexample_missing_habitat :
  ∃ d' out,
    wf missing_habitat ∧
    has_col "habitat_type" missing_habitat = true ∧
    geographic_analysis missing_habitat = (inr (), d', out) ∧
    sum_list_with (λ l, l.1.2) (habitat_lines out) = 1 ∧
    sum_list_with (λ l, l.1.2) (habitat_lines out) ≠ nrows missing_habitat.
Proof.
  eexists _, _. split_and!.
  - split; [repeat constructor|].
    apply (bool_decide_unpack _). vm_compute. exact I.
  - reflexivity.
  - vm_compute. reflexivity.
  - reflexivity.
  - vm_compute. discriminate.
Qed.

(** ** Grouping *)

Section Grouping.
Context {F : Type} `{Arith F}.
Implicit Types (k : cell F) (acc : list (cell F * F)).

Lemma acc_get_accumulate_eq {A} (f : A → A) i k (acc : list (cell F * A)) :
  acc_get k (accumulate f i k acc) = Some (f (default i (acc_get k acc))).
Proof.
  induction acc as [|[k' a] acc IH]; simpl.
  - by rewrite decide_True.
  - destruct (decide (k' = k)) as [->|Hne]; simpl.
    + by rewrite decide_True.
    + by rewrite decide_False.
Qed.

Lemma acc_get_accumulate_ne {A} (f : A → A) i k k' (acc : list (cell F * A)) :
  k ≠ k' → acc_get k' (accumulate f i k acc) = acc_get k' acc.
Proof.
  intros Hne. induction acc as [|[k0 a] acc IH]; simpl.
  - by rewrite decide_False.
  - destruct (decide (k0 = k)) as [->|Hk0]; simpl.
    + by rewrite !decide_False.
    + by rewrite IH.
Qed.

Lemma elem_of_accumulate_keys {A} (f : A → A) i k k' (acc : list (cell F * A)) :
  k' ∈ (accumulate f i k acc).*1 ↔ k' = k ∨ k' ∈ acc.*1.
Proof.
  induction acc as [|[k0 a] acc IH]; simpl.
  - rewrite list_elem_of_singleton, elem_of_nil. tauto.
  - destruct (decide (k0 = k)) as [->|Hk0]; simpl.
    + rewrite !elem_of_cons. tauto.
    + rewrite !elem_of_cons, IH. tauto.
Qed.

Lemma NoDup_accumulate_keys {A} (f : A → A) i k (acc : list (cell F * A)) :
  NoDup acc.*1 → NoDup (accumulate f i k acc).*1.
Proof.
  induction acc as [|[k0 a] acc IH]; simpl.
  - intros _. apply NoDup_singleton.
  - rewrite NoDup_cons. intros [Hk0 Hacc].
    destruct (decide (k0 = k)) as [->|Hne]; simpl.
    + by apply NoDup_cons.
    + apply NoDup_cons. split; [|by apply IH].
      rewrite elem_of_accumulate_keys. intros [?|?]; done.
Qed.

Lemma acc_get_elem_of {A} k (a : A) (acc : list (cell F * A)) :
  NoDup acc.*1 → (k, a) ∈ acc → acc_get k acc = Some a.
Proof.
  induction acc as [|[k0 b] acc IH]; simpl.
  - by rewrite elem_of_nil.
  - rewrite NoDup_cons, elem_of_cons. intros [Hk0 Hacc] [Heq|Hin].
    + simplify_eq. by rewrite decide_True.
    + destruct (decide (k0 = k)) as [->|Hne]; [|by apply IH].
      destruct Hk0. by apply (list_elem_of_fmap_2 fst _ (k, a)).
Qed.

Lemma null_key_differs k k' : isnull k = false → isnull k' = true → k' ≠ k.
Proof. intros Hk Hk' ->. congruence. Qed.






End Grouping.

Section GroupSums.
Context {F : Type} `{Arith F}.
Implicit Types (k : cell F) (keys : list (cell F)) (xs : list F).




Context `{!ArithOrder F}.

Global Instance desc_total {A} : Total (desc (A:=A) (F:=F)).
Proof.
  intros p q. unfold desc, desc_leb.
  destruct (isnan q.2) eqn:Hq; [by left|].
  destruct (isnan p.2) eqn:Hp; [by right|]. simpl.
  destruct (fleb_total p.2 q.2 Hp Hq); [by right|by left].
Qed.

Global Instance desc_trans {A} : Transitive (desc (A:=A) (F:=F)).
Proof.
  intros p q r. unfold desc, desc_leb.
  destruct (isnan r.2) eqn:Hr; [done|]. simpl.
  destruct (isnan q.2) eqn:Hq; simpl.
  { by intros _ ?. }
  destruct (isnan p.2) eqn:Hp; simpl; [done|].
  intros Hqp Hrq. by apply (fleb_trans _ q.2).
Qed.


End GroupSums.

(** ** The species breakdown *)

Section SpeciesBreakdown.
Context {F : Type} `{Extern F}.
Implicit Types (d : dataframe F).



End SpeciesBreakdown.

(** ** The exact arithmetic is ordered *)

Global Instance xnum_order : ArithOrder xnum.
Proof.
  split.
  - intros [a| | |] [b| | |]; simpl; try done; try (by left); try (by right).
    intros _ _. rewrite !Qle_bool_iff.
    destruct (Qlt_le_dec a b) as [Hlt|Hle]; [left; by apply Qlt_le_weak|by right].
  - intros [a| | |] [b| | |] [c| | |]; simpl; try done.
    rewrite !Qle_bool_iff. apply Qle_trans.
Qed.


(** ** Percentages *)

Section ToleranceProofs.
Context {F : Type} {roundoff : Q} `{Rounding F roundoff}.
Implicit Types (x y : F) (q : Q).















End ToleranceProofs.

Section PercentagesSum.
Context {F : Type} {roundoff : Q} `{Extern F} `{Valued F} `{!Rounding F roundoff}.
Implicit Types (d : dataframe F).


End PercentagesSum.

(** The exact arithmetic rounds nothing. *)
Global Instance xnum_rounding : Rounding xnum 0.
Proof.
  split.
  - lra.
  - by intros [q| | |] c.
  - intros n _. eexists. split; [reflexivity|].
    unfold Qc_of_Z. simpl. reflexivity.
  - intros [qa| | |] [qb| | |] a b (ca & Ha & Ea) (cb & Hb & Eb) _; try done.
    unfold value, xnum_valued in Ha, Hb. simplify_eq. eexists. split; [reflexivity|]. simpl.
    by rewrite Qred_correct, Ea, Eb, inject_Z_plus.
  - intros [qa| | |] [qb| | |] a b (ca & Ha & Ea) (cb & Hb & Eb) Hb0 _; try done.
    unfold value, xnum_valued in Ha, Hb. simplify_eq. exists 0%Q. split; [done|].
    simpl. unfold xdiv. destruct (decide (qb = 0%Qc)) as [->|Hne].
    { destruct Hb0. by rewrite <-Eb. }
    eexists. split; [reflexivity|]. simpl.
    rewrite Qred_correct, Qred_correct, Ea, Eb. by field.
  - intros [qa| | |] [qb| | |] a b (ca & Ha & Ea) (cb & Hb & Eb) _; try done.
    unfold value, xnum_valued in Ha, Hb. simplify_eq. exists 0%Q. split; [done|].
    eexists. split; [reflexivity|]. simpl.
    rewrite Qred_correct, Ea, Eb. ring.
Qed.



(** The same table in binary64: the percentage is NaN there too. *)
Example binary64_zero_total :
  ∃ d' out,
    population_analysis zero_population64 = (inr (), d', out) ∧
    isnan <$> (group_lines out).*2 = [true] ∧
    ∀ pcts, ¬ percentages (group_lines out) pcts.
Proof.
  eexists _, _. split_and!.
  - vm_compute. reflexivity.
  - vm_compute. reflexivity.
  - intros pcts Hpcts. inversion Hpcts as [|l p ls ps (c & Hc & _) _]; subst.
    vm_compute in Hc. discriminate Hc.
Qed.

(** In binary64 the percentages of 330, 180 and 150 in 660 are rounded:
    their sum is not 100, and lies within the bounds of
    [sums_to_100_within_tolerance] for the unit roundoff 2^-53. *)
Example binary64_rounded_percentages :
  ∃ d' out pcts,
    population_analysis flamingos64 = (inr (), d', out) ∧
    whole_totals (group_lines out) [330; 180; 150]%Z ∧
    percentages (group_lines out) pcts ∧
    (Qsum pcts < 100)%Q ∧
    (100 * ((1 - u64) * (1 - u64)) <= Qsum pcts
     <= 100 * ((1 + u64) * (1 + u64)))%Q.
Proof.
  eexists _, _, _. split_and!.
  - vm_compute. reflexivity.
  - repeat constructor; try (by vm_compute);
      (eexists; split; [vm_compute; reflexivity|by vm_compute]).
  - repeat constructor; (eexists; split; [vm_compute; reflexivity|reflexivity]).
  - by vm_compute.
  - by vm_compute.
  - by vm_compute.
Qed.

(** Beyond 2^53 the bound is lost: two groups of 2^1023 have a sum that
    overflows, and both percentages are 0. *)
Example binary64_overflow :
  ∃ d' out,
    population_analysis overflowing = (inr (), d', out) ∧
    Forall (λ l, stands_for l.1.2 (inject_Z (2 ^ 1023))) (group_lines out) ∧
    percentages (group_lines out) [0; 0]%Q.
Proof.
  eexists _, _. split_and!.
  - vm_compute. reflexivity.
  - repeat constructor; (eexists; split; [vm_compute; reflexivity|by vm_compute]).
  - repeat constructor; (eexists; split; [vm_compute; reflexivity|reflexivity]).
Qed.

(** ** The table is only ever extended *)

Create HintDb preserves discriminated.

Section Preserves.
Context {F S : Type} (R : relation S) `{!PreOrder R}.

Lemma preserves_ret {A} (x : A) : preserves R (mret x : M F S A).
Proof. intros s. simpl. reflexivity. Qed.

Lemma preserves_print e : preserves R (print e : M F S unit).
Proof. intros s. simpl. reflexivity. Qed.

Lemma preserves_raise {A} e : preserves R (raise e : M F S A).
Proof. intros s. simpl. reflexivity. Qed.

Lemma preserves_get : preserves R (get : M F S S).
Proof. intros s. simpl. reflexivity. Qed.

Lemma preserves_bind {A B} (m : M F S A) (f : A → M F S B) :
  preserves R m → (∀ x, preserves R (f x)) → preserves R (m ≫= f).
Proof.
  intros Hm Hf s. rewrite bind_unfold. specialize (Hm s).
  destruct (m s) as [[[e|x] s1] o1]; [done|].
  rewrite emit_state. etrans; [exact Hm|]. apply Hf.
Qed.

Lemma preserves_when c (body : M F S unit) :
  preserves R body → preserves R (when c body).
Proof. destruct c; [done|]. intros _. apply preserves_ret. Qed.

Lemma preserves_for_each {A} (l : list A) (body : A → M F S unit) :
  (∀ x, preserves R (body x)) → preserves R (for_each l body).
Proof.
  intros Hbody. induction l as [|x l IH]; simpl; [apply preserves_ret|].
  apply preserves_bind; auto.
Qed.

End Preserves.

Global Hint Resolve preserves_ret preserves_print preserves_raise preserves_get
  preserves_when : preserves.
Global Hint Extern 1 (PreOrder _) => apply _ : preserves.
Global Hint Extern 2 (preserves _ (@mbind _ _ _ _ _ _)) =>
  apply preserves_bind; [..|intros ?] : preserves.
Global Hint Extern 2 (preserves _ (for_each _ _)) =>
  apply preserves_for_each; [..|intros ?] : preserves.

Section TableGrows.
Context {F : Type} `{Extern F}.
Implicit Types (d : dataframe F).

Lemma set_col_set_col n (a b : list (cell F)) d :
  set_col n a (set_col n b d) = set_col n a d.
Proof. unfold set_col. simpl. by rewrite alist_set_set. Qed.

Global Instance grows_preorder : PreOrder (grows (F:=F)).
Proof.
  split.
  - intros d. by left.
  - intros d1 d2 d3 [->|[g ->]] [->|[g' ->]]; unfold grows; eauto.
    right. exists g'. apply set_col_set_col.
Qed.

Section AnyRelation.
Context (R : relation (dataframe F)) `{!PreOrder R}.

Lemma preserves_column n : preserves R (column n).
Proof.
  unfold column. apply preserves_bind; [auto with preserves..|].
  intros d. destruct (get_col n d); auto with preserves.
Qed.

Lemma preserves_grouped_column n : preserves R (grouped_column n).
Proof.
  unfold grouped_column. apply preserves_bind; [auto with preserves..|].
  intros d. destruct (get_col n d); auto with preserves.
Qed.

Lemma preserves_numeric c : preserves R (numeric c).
Proof. unfold numeric. destruct (mapM to_num c); auto with preserves. Qed.

Lemma preserves_shapiro xs : preserves R (shapiro xs).
Proof. unfold shapiro. destruct (shapiro_wilk xs); auto with preserves. Qed.

Lemma preserves_overall_growth c23 c20 (t23 t20 : F) :
  preserves R (overall_growth c23 c20 t23 t20).
Proof. unfold overall_growth. destruct (decide _); auto with preserves. Qed.

Hint Resolve preserves_column preserves_grouped_column preserves_numeric
  preserves_shapiro : preserves.

Lemma preserves_banner t : preserves R (banner t).
Proof. unfold banner. auto with preserves. Qed.

Lemma preserves_breakdown key : preserves R (breakdown key).
Proof. unfold breakdown. cbv zeta. auto 10 with preserves. Qed.

Hint Resolve preserves_banner preserves_breakdown : preserves.

Lemma preserves_exploratory_analysis : preserves R exploratory_analysis.
Proof. unfold exploratory_analysis. auto 20 with preserves. Qed.

Lemma preserves_geographic_analysis : preserves R geographic_analysis.
Proof. unfold geographic_analysis. auto 20 with preserves. Qed.

Lemma preserves_conservation_status_analysis :
  preserves R conservation_status_analysis.
Proof. unfold conservation_status_analysis. auto 20 with preserves. Qed.

Lemma preserves_statistical_tests : preserves R statistical_tests.
Proof. unfold statistical_tests. cbv zeta. auto 20 with preserves. Qed.

End AnyRelation.

Lemma grows_assign (c : list (cell F)) :
  preserves grows (assign "growth_rate" c).
Proof. intros d. right. by exists c. Qed.

Lemma grows_growth_block : preserves grows growth_block.
Proof.
  unfold growth_block. cbv zeta.
  auto 20 using grows_assign, preserves_column, preserves_numeric,
    preserves_overall_growth with preserves.
Qed.

Lemma grows_population_analysis : preserves grows population_analysis.
Proof.
  unfold population_analysis.
  auto 20 using grows_growth_block, preserves_banner, preserves_breakdown
    with preserves.
Qed.

(** What [grows] says of the columns. *)
Lemma grows_keeps_source d d' : grows d d' → keeps_source d d'.
Proof.
  intros [->|[g ->]]; unfold keeps_source.
  { split_and!; done. }
  split_and!; [done|..].
  - intros n Hn. by apply get_col_set_ne.
  - unfold column_names, set_col. simpl.
    destruct (decide ("growth_rate" ∈ (columns d).*1)) as [Hin|Hnin].
    + by rewrite alist_set_names.
    + rewrite alist_set_fresh, fmap_app by done. by apply prefix_app_r.
  - intros Hnin. unfold set_col. simpl.
    rewrite alist_set_fresh by done. by apply prefix_app_r.
Qed.

End TableGrows.

Section PipelineGrows.
Context {F : Type} `{Extern F}.

Global Instance table_grows_preorder : PreOrder (table_grows (F:=F)).
Proof.
  split.
  - intros s. unfold table_grows. reflexivity.
  - intros s1 s2 s3. unfold table_grows. apply transitivity.
Qed.

Lemma table_grows_on_table {X} (m : M F (dataframe F) X) :
  preserves grows m → preserves table_grows (on_table m).
Proof.
  intros Hm s. unfold on_table, table_grows. specialize (Hm (self_df s)).
  by destruct (m (self_df s)) as [[r d] o].
Qed.

Lemma table_grows_on_files {X} (m : M F (gmap string node) X) :
  preserves table_grows (on_files m).
Proof.
  intros s. unfold on_files, table_grows.
  destruct (m (files s)) as [[r fs] o]. simpl. reflexivity.
Qed.

Hint Resolve table_grows_on_files : preserves.
Hint Extern 1 (preserves table_grows (on_table _)) =>
  apply table_grows_on_table : preserves.
Hint Resolve preserves_column preserves_grouped_column preserves_numeric
  preserves_exploratory_analysis grows_population_analysis
  preserves_geographic_analysis preserves_conservation_status_analysis
  preserves_statistical_tests : preserves.

Lemma table_grows_generate_visualizations render :
  preserves table_grows (generate_visualizations render).
Proof. unfold generate_visualizations. auto 20 with preserves. Qed.



(** [population_analysis] begins with its banner and the guarded
    growth-rate block; what follows only reads the table. *)
Lemma population_analysis_unfold (d : dataframe F) :
  population_analysis d
  = emit (banner_lines "POPULATION ANALYSIS")
      ((when (has_col "population_2020" d && has_col "population_2023" d) growth_block
        ≫= λ _, d ← get;
                when (has_col "species" d)
                  (print (Line species_title);; breakdown "species");;
                print (Line nl)) d).
Proof. unfold population_analysis. rewrite banner_run. by rewrite bind_get. Qed.



End PipelineGrows.


(** ** The normality test *)

Section Shapiro.
Context {F : Type} `{Extern F}.
Implicit Types (d : dataframe F).

Lemma filter_notnull_CNum (xs : list F) :
  filter (λ c, isnull c = false) (CNum <$> xs) = CNum <$> dropna xs.
Proof.
  unfold dropna. induction xs as [|x xs IH]; [done|].
  rewrite fmap_cons, !filter_cons. simpl. rewrite IH.
  by destruct (decide (isnan x = false)).
Qed.

(** With a numeric [population_2023], what [statistical_tests] does
    after the five statistics is decided by the Shapiro-Wilk test of the
    values that are not missing. *)
Lemma statistical_tests_numeric d xs :
  get_col "population_2023" d = Some (CNum <$> xs) →
  statistical_tests d
  = match shapiro_wilk (dropna xs) with
    | inl e =>
        (inl e, d,
         banner_lines "STATISTICAL ANALYSIS" ++ statistics_events (dropna xs))
    | inr sp =>
        (inr (), d,
         banner_lines "STATISTICAL ANALYSIS" ++ statistics_events (dropna xs)
         ++ [PValue sp.2; Line nl])
    end.
Proof.
  intros Hc. rewrite <-bind_ret_r. unfold statistical_tests. run.
  rewrite banner_run; run.
  rewrite (proj2 (has_col_true _ _)) by (by rewrite Hc). run.
  rewrite (column_run _ _ _ _ Hc); run.
  rewrite filter_notnull_CNum.
  rewrite (numeric_run _ _ _ _ (mapM_to_num_CNum _)); run.
  unfold shapiro. destruct (shapiro_wilk (dropna xs)) as [e|sp]; run.
  - by rewrite ?emit_pair, <-?(assoc_L (++)).
  - unfold mret, M_ret. by rewrite ?emit_pair, <-?(assoc_L (++)).
Qed.

End Shapiro.

(** ** Loading *)

Section Loading.
Context {F : Type} `{Extern F}.

(** [read_csv] only reads. *)
Lemma read_csv_pure data_file (fs : gmap string node) :
  ∃ r, read_csv data_file fs = (r, fs, []).
Proof.
  unfold read_csv. rewrite bind_get.
  destruct (fs !! data_file) as [[|content]|]; [by eexists| |by eexists].
  destruct (parse_csv content); by eexists.
Qed.

(** C7.  Loading a path that does not exist raises [FileNotFoundError]
    after the line that says so, leaves the files as they are and runs no
    method of the object; any other exception of [read_csv] is raised
    again after the line that carries its message. *)
Theorem C7_load_failures_are_raised_again data_file (fs : gmap string node) :
  (fs !! data_file = None →
   load_data data_file fs
   = (inl (FileNotFoundError data_file), fs,
      [loading_line; Line ("[!] Error: File '" +:+ data_file +:+ "' not found")])
   ∧ ∀ X (method : M F (session F) X),
       with_object data_file method fs
       = (inl (FileNotFoundError data_file), fs,
          [loading_line;
           Line ("[!] Error: File '" +:+ data_file +:+ "' not found")]))
  ∧ (∀ e, (read_csv data_file fs).1.1 = inl e →
          is_FileNotFoundError e = false →
     load_data data_file fs
     = (inl e, fs,
        [loading_line; Line ("[!] Error loading data: " +:+ exn_message e)])
     ∧ ∀ X (method : M F (session F) X),
         with_object data_file method fs
         = (inl e, fs,
            [loading_line; Line ("[!] Error loading data: " +:+ exn_message e)])).
Proof.
  split.
  - intros Hnone.
    assert (load_data data_file fs
            = (inl (FileNotFoundError data_file), fs,
               [loading_line;
                Line ("[!] Error: File '" +:+ data_file +:+ "' not found")]))
      as Hload.
    { unfold load_data. rewrite bind_print. unfold try_except.
      assert (read_csv data_file fs = (inl (FileNotFoundError data_file), fs, []))
        as Hread.
      { unfold read_csv. rewrite bind_get, Hnone. done. }
      rewrite (bind_inl _ _ _ _ _ _ Hread). simpl. by rewrite bind_print. }
    split; [done|]. intros X method. unfold with_object.
    by rewrite (bind_inl _ _ _ _ _ _ Hload).
  - intros e Hread He.
    destruct (read_csv_pure data_file fs) as [r Hr].
    rewrite Hr in Hread. simpl in Hread. subst r. rename Hr into Hread.
    assert (load_data data_file fs
            = (inl e, fs,
               [loading_line;
                Line ("[!] Error loading data: " +:+ exn_message e)]))
      as Hload.
    { unfold load_data. rewrite bind_print. unfold try_except.
      rewrite (bind_inl _ _ _ _ _ _ Hread). rewrite He. by rewrite bind_print. }
    split; [done|]. intros X method. unfold with_object.
    by rewrite (bind_inl _ _ _ _ _ _ Hload).
Qed.

End Loading.

Lemma C7_load_failures_are_raised_again_witness :
  (load_data "data/flamingo_data.csv" (∅ : gmap string node)
   = (inl (FileNotFoundError "data/flamingo_data.csv"), ∅,
      [loading_line;
       Line "[!] Error: File 'data/flamingo_data.csv' not found"])
   ∧ main sample_render ∅
     = (inl (FileNotFoundError "data/flamingo_data.csv"), ∅,
        [loading_line;
         Line "[!] Error: File 'data/flamingo_data.csv' not found"]))
  ∧ load_data "data/flamingo_data.csv"
      ({[ "data/flamingo_data.csv" := File "garbage" ]} : gmap string node)
    = (inl (ParserError "Error tokenizing data"),
       {[ "data/flamingo_data.csv" := File "garbage" ]},
       [loading_line; Line "[!] Error loading data: Error tokenizing data"]).
Proof.
  split.
  - destruct (C7_load_failures_are_raised_again (F:=xnum)
                "data/flamingo_data.csv" ∅) as [Hmissing _].
    destruct (Hmissing eq_refl) as [Hload Hrun].
    split; [exact Hload|]. exact (Hrun _ (run_full_analysis sample_render)).
  - destruct (C7_load_failures_are_raised_again (F:=xnum)
                "data/flamingo_data.csv"
                {[ "data/flamingo_data.csv" := File "garbage" ]}) as [_ Hother].
    destruct (Hother (ParserError "Error tokenizing data") eq_refl eq_refl)
      as [Hload _].
    exact Hload.
Defined.

(** ** Writing files *)

Lemma str_app_assoc (a b c : string) : (a +:+ b) +:+ c = a +:+ (b +:+ c).
Proof.
  induction a as [|x a IH]; [done|].
  change (String x ((a +:+ b) +:+ c) = String x (a +:+ (b +:+ c))).
  by rewrite IH.
Qed.

Section FileRuns.
Context {F : Type}.
Implicit Types (fs : gmap string node).

Local Abbreviation IO := (M F (gmap string node)).

Lemma writable_true parent path fs :
  writable parent path fs = true ↔ fs !! parent = Some Dir ∧ fs !! path ≠ Some Dir.
Proof.
  unfold writable.
  by rewrite andb_true_iff, negb_true_iff, bool_decide_eq_true, bool_decide_eq_false.
Qed.

Lemma open_w_run parent path fs :
  writable parent path fs = true →
  open_w (F:=F) parent path fs = (inr (), <[path := File ""]> fs, []).
Proof.
  intros [Hparent Hpath]%writable_true. unfold open_w.
  rewrite bind_get, Hparent. by destruct (fs !! path) as [[|c]|].
Qed.

Lemma open_w_fail parent path fs :
  writable parent path fs = false →
  ∃ e, open_w (F:=F) parent path fs = (inl e, fs, []).
Proof.
  intros Hw. unfold open_w. rewrite bind_get.
  destruct (fs !! parent) as [[|c]|] eqn:Hparent; [|by eexists..].
  destruct (fs !! path) as [[|c]|] eqn:Hpath; [by eexists|..].
  - apply not_true_iff_false in Hw. destruct Hw. apply writable_true.
    by rewrite Hparent, Hpath.
  - apply not_true_iff_false in Hw. destruct Hw. apply writable_true.
    by rewrite Hparent, Hpath.
Qed.

Lemma write_run path c s fs :
  write (F:=F) path s (<[path := File c]> fs)
  = (inr (), <[path := File (c +:+ s)]> fs, []).
Proof.
  unfold write. rewrite bind_get, lookup_insert_eq. simpl.
  by rewrite insert_insert_eq.
Qed.

Lemma savefig_run parent path image fs :
  writable parent path fs = true →
  savefig (F:=F) parent path image fs = (inr (), <[path := File image]> fs, []).
Proof.
  intros Hw. unfold savefig.
  rewrite (bind_inr _ _ _ _ _ _ (open_w_run _ _ _ Hw)), write_run. done.
Qed.

Lemma savefig_fail parent path image fs :
  writable parent path fs = false →
  ∃ e, savefig (F:=F) parent path image fs = (inl e, fs, []).
Proof.
  intros Hw. unfold savefig. destruct (open_w_fail _ _ _ Hw) as [e He].
  exists e. by rewrite (bind_inl _ _ _ _ _ _ He).
Qed.

End FileRuns.

Section SessionRuns.
Context {F : Type} `{Extern F}.
Implicit Types (s : session F).

Local Abbreviation P := (M F (session F)).

Lemma on_files_run {X B} (m : M F (gmap string node) X) (f : X → P B) s x fs o :
  m (files s) = (inr x, fs, o) →
  (on_files m ≫= f) s = emit o (f x {| self_df := self_df s; files := fs |}).
Proof. intros Hm. apply bind_inr. unfold on_files. by rewrite Hm. Qed.

Lemma on_files_fail {X B} (m : M F (gmap string node) X) (f : X → P B) s e fs o :
  m (files s) = (inl e, fs, o) →
  (on_files m ≫= f) s = (inl e, {| self_df := self_df s; files := fs |}, o).
Proof. intros Hm. apply bind_inl. unfold on_files. by rewrite Hm. Qed.

Lemma on_table_run {X B} (m : M F (dataframe F) X) (f : X → P B) s x d o :
  m (self_df s) = (inr x, d, o) →
  (on_table m ≫= f) s = emit o (f x {| self_df := d; files := files s |}).
Proof. intros Hm. apply bind_inr. unfold on_table. by rewrite Hm. Qed.


Lemma write_step {B} path c t (f : unit → P B) d fs :
  (on_files (write path t) ≫= f) {| self_df := d; files := <[path := File c]> fs |}
  = f () {| self_df := d; files := <[path := File (c +:+ t)]> fs |}.
Proof.
  rewrite (on_files_run _ _ {| self_df := d; files := <[path := File c]> fs |}
             _ _ _ (write_run _ _ _ _)).
  apply emit_nil.
Qed.

Lemma on_table_get {B} (f : dataframe F → P B) d fs :
  (on_table get ≫= f) {| self_df := d; files := fs |}
  = f d {| self_df := d; files := fs |}.
Proof.
  rewrite (on_table_run get _ {| self_df := d; files := fs |} d d []) by done.
  apply emit_nil.
Qed.

(** [generate_report] writes [report_text (len(self.df))], or fails to
    open the file. *)
Lemma generate_report_run s :
  writable "outputs" report_path (files s) = true →
  generate_report s
  = (inr (),
     {| self_df := self_df s;
        files := <[report_path := File (report_text (nrows (self_df s)))]> (files s) |},
     report_events).
Proof.
  intros Hw. destruct s as [d fs]. simpl in *.
  rewrite <-bind_ret_r. unfold generate_report. cbv zeta. run.
  rewrite (on_files_run _ _ {| self_df := d; files := fs |} _ _ _
             (open_w_run _ _ _ Hw)). simpl. run.
  repeat (first [rewrite write_step | rewrite on_table_get | run_step]; cbv beta).
  unfold mret, M_ret. rewrite emit_pair. simpl.
  unfold report_events, report_text. rewrite !str_app_assoc. done.
Qed.

Lemma generate_report_fail s :
  writable "outputs" report_path (files s) = false →
  ∃ e, generate_report s
       = (inl e, s, [Line "[*] Generating analysis report..."]).
Proof.
  intros Hw. destruct s as [d fs]. simpl in *.
  unfold generate_report. cbv zeta. run.
  destruct (open_w_fail (F:=F) _ _ _ Hw) as [e He].
  rewrite (on_files_fail _ _ {| self_df := d; files := fs |} _ _ _ He).
  simpl. by exists e.
Qed.

End SessionRuns.

(** ** The files that a run touches *)

Section FilesStep.
Context {F : Type} `{Extern F}.
Implicit Types (s : session F) (fs : gmap string node).

Global Instance files_step_preorder : PreOrder files_step.
Proof.
  split.
  - intros fs. by split.
  - intros fs1 fs2 fs3 [Hsame12 Hdir12] [Hsame23 Hdir23]. split.
    + intros p Hp. by rewrite Hsame23, Hsame12.
    + intros p Hp Hnd. by apply Hdir23, Hdir12.
Qed.

Global Instance session_files_step_preorder :
  PreOrder (session_files_step (F:=F)).
Proof.
  split.
  - intros s. unfold session_files_step. reflexivity.
  - intros s1 s2 s3. unfold session_files_step. apply transitivity.
Qed.

Lemma files_step_insert_file path c fs :
  path ∈ output_paths → path ≠ "outputs" →
  files_step fs (<[path := File c]> fs).
Proof.
  intros Hin Hne. split.
  - intros p Hp. rewrite lookup_insert_ne; [done|]. by intros ->.
  - intros p _ Hnd. destruct (decide (path = p)) as [->|].
    + by rewrite lookup_insert_eq.
    + by rewrite lookup_insert_ne.
Qed.

Lemma files_step_makedirs fs : files_step fs (<["outputs" := Dir]> fs).
Proof.
  split.
  - intros p Hp. rewrite lookup_insert_ne; [done|]. intros <-. apply Hp. by left.
  - intros p Hp Hnd. by rewrite lookup_insert_ne.
Qed.

Lemma files_step_on_table {X} (m : M F (dataframe F) X) :
  preserves (session_files_step (F:=F)) (on_table m).
Proof.
  intros s. unfold on_table, session_files_step.
  destruct (m (self_df s)) as [[r d] o]. simpl. reflexivity.
Qed.

Lemma files_step_path_exists p :
  preserves (session_files_step (F:=F)) (on_files (path_exists (F:=F) p)).
Proof. intros s. unfold session_files_step. simpl. reflexivity. Qed.

Lemma files_step_makedirs_outputs :
  preserves (session_files_step (F:=F)) (on_files (makedirs (F:=F) "outputs")).
Proof. intros s. unfold session_files_step. simpl. apply files_step_makedirs. Qed.

Lemma files_step_savefig path image :
  path ∈ output_paths → path ≠ "outputs" →
  preserves (session_files_step (F:=F)) (on_files (savefig (F:=F) "outputs" path image)).
Proof.
  intros Hin Hne s. unfold session_files_step, on_files.
  destruct (writable "outputs" path (files s)) eqn:Hw.
  - rewrite (savefig_run _ _ _ _ Hw). simpl. by apply files_step_insert_file.
  - destruct (savefig_fail (F:=F) _ _ image _ Hw) as [e ->]. simpl. reflexivity.
Qed.

Lemma files_step_generate_report : preserves (session_files_step (F:=F)) generate_report.
Proof.
  intros s. unfold session_files_step.
  destruct (writable "outputs" report_path (files s)) eqn:Hw.
  - rewrite (generate_report_run _ Hw). simpl.
    apply files_step_insert_file; [|done]. unfold output_paths. do 3 right. left.
  - destruct (generate_report_fail _ Hw) as [e ->]. simpl. reflexivity.
Qed.

Lemma files_step_generate_visualizations render :
  preserves (session_files_step (F:=F)) (generate_visualizations render).
Proof.
  unfold generate_visualizations.
  assert (species_chart ∈ output_paths) by (unfold output_paths; right; left).
  assert (growth_chart ∈ output_paths) by (unfold output_paths; do 2 right; left).
  auto 20 using files_step_on_table, files_step_path_exists,
    files_step_makedirs_outputs, files_step_savefig with preserves.
Qed.

Lemma files_step_run_full_analysis render :
  preserves (session_files_step (F:=F)) (run_full_analysis render).
Proof.
  unfold run_full_analysis.
  auto 40 using files_step_on_table, files_step_generate_visualizations,
    files_step_generate_report with preserves.
Qed.

End FilesStep.

(** ** The report of a run *)

Section Report.
Context {F : Type} `{Extern F}.
Implicit Types (s : session F).

Local Abbreviation P := (M F (session F)).

(** One more step of a run that is compared with a regrouping of itself:
    a line is printed, or a method returns or raises. *)
Ltac split_step :=
  first
  [ rewrite !bind_assoc
  | rewrite !bind_print
  | progress cbv beta
  | match goal with
    | |- context [ (?m ≫= _) ?s ] =>
        rewrite !(bind_unfold m _ s);
        destruct (m s) as [[[?|[]] ?] ?]; [reflexivity|]
    end ].

Lemma run_full_analysis_split render s :
  run_full_analysis render s
  = (before_report render ≫= λ _, generate_report ≫= λ _, closing) s.
Proof.
  unfold run_full_analysis, before_report, closing.
  repeat split_step. reflexivity.
Qed.

Lemma closing_run s : closing s = (inr (), s, closing_events).
Proof. reflexivity. Qed.

Lemma table_grows_before_report render :
  preserves table_grows (before_report render).
Proof.
  unfold before_report.
  auto 40 using table_grows_generate_visualizations, table_grows_on_table,
    preserves_exploratory_analysis, grows_population_analysis,
    preserves_geographic_analysis, preserves_conservation_status_analysis,
    preserves_statistical_tests with preserves.
Qed.

(** A run that returns has written the report for the number of records
    of the table, in the directory [outputs]. *)
Lemma run_full_analysis_report render s s1 o :
  run_full_analysis render s = (inr (), s1, o) →
  files s1 !! "outputs" = Some Dir ∧
  files s1 !! report_path = Some (File (report_text (nrows (self_df s)))).
Proof.
  rewrite run_full_analysis_split, bind_unfold.
  pose proof (table_grows_before_report render s) as Hgrows.
  destruct (before_report render s) as [[[e|[]] s6] o6]; [done|].
  simpl in Hgrows. apply grows_keeps_source in Hgrows as [Hrows _].
  rewrite bind_unfold.
  destruct (writable "outputs" report_path (files s6)) eqn:Hw.
  - rewrite (generate_report_run _ Hw), closing_run, !emit_pair.
    intros [= <- _]. simpl. rewrite Hrows.
    apply writable_true in Hw as [Hdir _].
    by rewrite lookup_insert_eq, lookup_insert_ne.
  - destruct (generate_report_fail _ Hw) as [e ->]. by rewrite emit_pair.
Qed.

End Report.

Section ReportContent.
Context {F : Type} `{Extern F}.

(** C10.  For two objects whose tables have the same number of rows,
    in file systems where the report can be opened, [generate_report]
    returns with the same lines printed and the same text in
    [outputs/analysis_report.txt]: the text for that number of rows. *)
Theorem C10_report_depends_on_row_count_only (s1 s2 : session F) :
  nrows (self_df s1) = nrows (self_df s2) →
  writable "outputs" report_path (files s1) = true →
  writable "outputs" report_path (files s2) = true →
  ∃ s1' s2' out,
    generate_report s1 = (inr (), s1', out) ∧
    generate_report s2 = (inr (), s2', out) ∧
    files s1' !! report_path = files s2' !! report_path ∧
    files s1' !! report_path = Some (File (report_text (nrows (self_df s1)))).
Proof.
  intros Hrows Hw1 Hw2.
  rewrite (generate_report_run s1 Hw1), (generate_report_run s2 Hw2).
  eexists _, _, _. split_and!; try done; simpl.
  - by rewrite !lookup_insert_eq, Hrows.
  - by rewrite lookup_insert_eq.
Qed.

End ReportContent.

Lemma C10_report_depends_on_row_count_only_witness :
  ∃ s1' s2' out,
    generate_report {| self_df := flamingos; files := {[ "outputs" := Dir ]} |}
    = (inr (), s1', out) ∧
    generate_report
      {| self_df := three_others;
         files := {[ "outputs" := Dir; report_path := File "old" ]} |}
    = (inr (), s2', out) ∧
    files s1' !! report_path = files s2' !! report_path ∧
    files s1' !! report_path = Some (File (report_text 3)).
Proof.
  apply (C10_report_depends_on_row_count_only
           {| self_df := flamingos; files := {[ "outputs" := Dir ]} |}
           {| self_df := three_others;
              files := {[ "outputs" := Dir; report_path := File "old" ]} |}).
  - reflexivity.
  - vm_compute. reflexivity.
  - vm_compute. reflexivity.
Defined.

(** ** A second run *)

Section Simulation.
Context {F : Type} `{Extern F}.
Implicit Types (s : session F) (fs : gmap string node).

Local Abbreviation P := (M F (session F)).

Lemma simulates_ret {X} (x : X) : simulates (mret x : P X) (mret x).
Proof.
  intros s s' Hdf Himp y s1 o [= <- <- <-]. by eexists _, _.
Qed.

Lemma simulates_print e : simulates (print e : P unit) (print e).
Proof.
  intros s s' Hdf Himp y s1 o [= <- <- <-]. by eexists _, _.
Qed.

Lemma simulates_bind {X Y} (m1 m2 : P X) (f1 f2 : X → P Y) :
  simulates m1 m2 → (∀ x, simulates (f1 x) (f2 x)) →
  simulates (m1 ≫= f1) (m2 ≫= f2).
Proof.
  intros Hm Hf s s' Hdf Himp y s1 o. rewrite bind_unfold.
  destruct (m1 s) as [[[e|x] sa] oa] eqn:Hrun; [done|].
  destruct (Hm s s' Hdf Himp x sa oa Hrun) as (sa' & oa' & Hrun' & Hdfa & Himpa).
  destruct (f1 x sa) as [[r sb] ob] eqn:Hnext. rewrite emit_pair.
  intros [= -> -> <-].
  destruct (Hf x sa sa' Hdfa Himpa y s1 ob Hnext)
    as (sb' & ob' & Hnext' & Hdfb & Himpb).
  exists sb', (oa' ++ ob').
  by rewrite (bind_inr _ _ _ _ _ _ Hrun'), Hnext', emit_pair.
Qed.

Lemma simulates_when c (b1 b2 : P unit) :
  simulates b1 b2 → simulates (when c b1) (when c b2).
Proof. destruct c; [done|]. intros _. apply simulates_ret. Qed.

(** A method that only uses the table does the same on the same table. *)
Lemma simulates_on_table {X} (m : M F (dataframe F) X) :
  simulates (on_table m) (on_table m).
Proof.
  intros s s' Hdf Himp x s1 o. unfold on_table. rewrite <-Hdf.
  destruct (m (self_df s)) as [[r d] o']. intros [= -> <- <-].
  by eexists _, _.
Qed.

Lemma improves_insert_file path c c' fs fs' :
  path ≠ "outputs" → improves fs fs' →
  improves (<[path := File c]> fs) (<[path := File c']> fs').
Proof.
  intros Hne [Hdir Hkeep]. split.
  - by rewrite lookup_insert_ne.
  - intros p Hp. destruct (decide (path = p)) as [->|].
    + by rewrite !lookup_insert_eq.
    + rewrite !lookup_insert_ne by done. by apply Hkeep.
Qed.

Lemma improves_writable path fs fs' :
  path ≠ "outputs" → improves fs fs' →
  writable "outputs" path fs = true → writable "outputs" path fs' = true.
Proof.
  intros Hne [Hdir Hkeep] [_ Hpath]%writable_true.
  apply writable_true. split; [done|]. by apply Hkeep.
Qed.

(** A chart can be saved again, whatever its bytes. *)
Lemma simulates_savefig path image1 image2 :
  path ≠ "outputs" →
  simulates (on_files (savefig (F:=F) "outputs" path image1))
            (on_files (savefig "outputs" path image2)).
Proof.
  intros Hne s s' Hdf Himp x s1 o. unfold on_files.
  destruct (writable "outputs" path (files s)) eqn:Hw.
  - rewrite (savefig_run _ _ _ _ Hw). intros [= <- <- <-].
    rewrite (savefig_run _ _ _ _ (improves_writable _ _ _ Hne Himp Hw)).
    eexists _, _. split_and!; [done..|]. simpl. by apply improves_insert_file.
  - by destruct (savefig_fail (F:=F) _ _ image1 _ Hw) as [e ->].
Qed.

(** The directory is there the second time. *)
Lemma simulates_makedirs {X} (rest1 rest2 : P X) :
  simulates rest1 rest2 →
  simulates
    (e ← on_files (path_exists "outputs");
     when (negb e) (on_files (makedirs "outputs"));; rest1)
    (e ← on_files (path_exists "outputs");
     when (negb e) (on_files (makedirs "outputs"));; rest2).
Proof.
  intros Hrest [d fs] [d' fs'] Hdf Himp x s1 o. simpl in Hdf, Himp.
  rewrite (on_files_run (path_exists "outputs") _ {| self_df := d; files := fs |}
             (bool_decide (is_Some (fs !! "outputs"))) fs []) by done.
  rewrite (on_files_run (path_exists "outputs") _ {| self_df := d'; files := fs' |}
             (bool_decide (is_Some (fs' !! "outputs"))) fs' []) by done.
  rewrite !emit_nil. cbn [self_df files].
  pose proof Himp as [Hdir Hkeep].
  rewrite (bool_decide_eq_true_2 (is_Some (fs' !! "outputs")))
    by (by rewrite Hdir).
  cbv beta. change (negb true) with false. rewrite bind_when_false.
  destruct (bool_decide (is_Some (fs !! "outputs"))).
  - change (negb true) with false. rewrite bind_when_false. by apply Hrest.
  - change (negb false) with true. rewrite bind_when_true.
    rewrite (on_files_run (makedirs "outputs") _ {| self_df := d; files := fs |}
               () (<["outputs" := Dir]> fs) []) by done.
    rewrite emit_nil. apply Hrest; [done|]. simpl. split; [done|].
    intros p Hp. rewrite lookup_insert_ne by done. by apply Hkeep.
Qed.

Lemma simulates_generate_visualizations render1 render2 :
  simulates (generate_visualizations render1) (generate_visualizations render2).
Proof.
  unfold generate_visualizations.
  apply simulates_bind; [apply simulates_print|intros _].
  apply simulates_makedirs.
  apply simulates_bind; [apply simulates_on_table|intros d].
  apply simulates_bind.
  { apply simulates_when.
    apply simulates_bind; [apply simulates_on_table|intros pop].
    apply simulates_bind; [by apply simulates_savefig|intros _].
    apply simulates_print. }
  intros _. apply simulates_bind; [|intros _; apply simulates_print].
  apply simulates_when.
  apply simulates_bind; [apply simulates_on_table|intros bars].
  apply simulates_bind; [by apply simulates_savefig|intros _].
  apply simulates_print.
Qed.

Lemma simulates_generate_report :
  simulates (F:=F) generate_report generate_report.
Proof.
  intros s s' Hdf Himp x s1 o.
  destruct (writable "outputs" report_path (files s)) eqn:Hw.
  - rewrite (generate_report_run _ Hw). intros [= <- <- <-].
    rewrite (generate_report_run s') by (by eapply improves_writable).
    eexists _, _. split_and!; [done..|]. simpl. by apply improves_insert_file.
  - by destruct (generate_report_fail _ Hw) as [e ->].
Qed.

(** A run that returned returns again from files that improve on those
    it started from, whatever the renderer. *)
Lemma simulates_run_full_analysis render1 render2 :
  simulates (run_full_analysis render1) (run_full_analysis render2).
Proof.
  unfold run_full_analysis.
  repeat (apply simulates_bind;
          [first [apply simulates_print | apply simulates_on_table
                 | apply simulates_generate_visualizations
                 | apply simulates_generate_report]
          |intros _]).
  apply simulates_print.
Qed.

End Simulation.

(** ** The pipeline, twice *)

Section TwoRuns.
Context {F : Type} `{Extern F}.
Implicit Types (fs : gmap string node).

Lemma load_data_run data_file content d fs :
  fs !! data_file = Some (File content) →
  parse_csv content = inr d →
  load_data data_file fs = (inr d, fs, loaded_events d).
Proof.
  intros Hfile Hparse. unfold load_data. rewrite bind_print. unfold try_except.
  assert (read_csv data_file fs = (inr d, fs, [])) as Hread.
  { unfold read_csv. by rewrite bind_get, Hfile, Hparse. }
  rewrite (bind_inr _ _ _ _ _ _ Hread). by rewrite !bind_print.
Qed.

Lemma load_data_raises data_file e fs :
  read_csv data_file fs = (inl e, fs, []) →
  ∃ o, load_data data_file fs = (inl e, fs, o).
Proof.
  intros Hread. unfold load_data. rewrite bind_print. unfold try_except.
  rewrite (bind_inl _ _ _ _ _ _ Hread).
  destruct (is_FileNotFoundError e); rewrite bind_print; by eexists.
Qed.

Lemma load_data_inv data_file d fs fs' o :
  load_data data_file fs = (inr d, fs', o) →
  fs' = fs ∧ ∃ content,
    fs !! data_file = Some (File content) ∧ parse_csv content = inr d.
Proof.
  destruct (fs !! data_file) as [[|content]|] eqn:Hfile.
  - destruct (load_data_raises data_file (IsADirectoryError data_file) fs)
      as [o' ->]; [|done].
    unfold read_csv. by rewrite bind_get, Hfile.
  - destruct (parse_csv content) as [e|d'] eqn:Hparse.
    + destruct (load_data_raises data_file e fs) as [o' ->]; [|done].
      unfold read_csv. by rewrite bind_get, Hfile, Hparse.
    + rewrite (load_data_run _ _ _ _ Hfile Hparse). intros [= <- <- _]. eauto.
  - destruct (load_data_raises data_file (FileNotFoundError data_file) fs)
      as [o' ->]; [|done].
    unfold read_csv. by rewrite bind_get, Hfile.
Qed.

(** C6.  When the pipeline has run to its end, the report it wrote is
    the text for the number of records of the loaded table, and a second
    run on the files the first one left, with any renderer, runs to its
    end as well and leaves the same report. *)
Theorem C6_report_is_reproducible render1 render2 fs fs1 out1 :
  main render1 fs = (inr (), fs1, out1) →
  ∃ fs2 out2 d content,
    fs !! "data/flamingo_data.csv" = Some (File content) ∧
    parse_csv content = inr d ∧
    main render2 fs1 = (inr (), fs2, out2) ∧
    fs1 !! report_path = Some (File (report_text (nrows d))) ∧
    fs2 !! report_path = fs1 !! report_path.
Proof.
  unfold main, with_object. rewrite bind_unfold.
  destruct (load_data "data/flamingo_data.csv" fs) as [[[e|d] fs'] o] eqn:Hload;
    [done|].
  apply load_data_inv in Hload as Hinv. destruct Hinv as (-> & content & Hfile & Hparse).
  destruct (run_full_analysis render1 {| self_df := d; files := fs |})
    as [[r s1] o1] eqn:Hrun1.
  unfold call at 1. rewrite Hrun1, emit_pair. intros [= -> <- _].
  pose proof (run_full_analysis_report _ _ _ _ Hrun1) as [Hdir1 Hreport1].
  pose proof (files_step_run_full_analysis render1
                {| self_df := d; files := fs |}) as Hstep.
  rewrite Hrun1 in Hstep. destruct Hstep as [Hsame Hkeep]. simpl in *.
  assert (files s1 !! "data/flamingo_data.csv" = Some (File content)) as Hfile1.
  { rewrite Hsame; [done|]. apply (bool_decide_unpack _). by vm_compute. }
  destruct (simulates_run_full_analysis render1 render2
              {| self_df := d; files := fs |}
              {| self_df := d; files := files s1 |}
              eq_refl (conj Hdir1 Hkeep) () s1 o1 Hrun1)
    as (s2 & o2 & Hrun2 & _ & _).
  pose proof (run_full_analysis_report _ _ _ _ Hrun2) as [_ Hreport2].
  exists (files s2), (loaded_events d ++ o2), d, content.
  split_and!; try done.
  - rewrite bind_unfold, (load_data_run _ _ _ _ Hfile1 Hparse).
    unfold call. by rewrite Hrun2, emit_pair.
  - simpl in Hreport2. by rewrite Hreport1, Hreport2.
Qed.

End TwoRuns.

Lemma C6_report_is_reproducible_witness :
  ∃ fs2 out2 d content,
    sample_files !! "data/flamingo_data.csv" = Some (File content) ∧
    parse_csv content = inr d ∧
    main other_render (main sample_render sample_files).1.2 = (inr (), fs2, out2) ∧
    (main sample_render sample_files).1.2 !! report_path
    = Some (File (report_text (nrows d))) ∧
    fs2 !! report_path = (main sample_render sample_files).1.2 !! report_path.
Proof.
  apply (C6_report_is_reproducible sample_render other_render sample_files
           (main sample_render sample_files).1.2
           (main sample_render sample_files).2).
  vm_compute. reflexivity.
Defined.

(** The first run of the sample pipeline saves both charts and the report
    for three records. *)
Example sample_run_outputs :
  (main sample_render sample_files).1.1 = inr () ∧
  (main sample_render sample_files).1.2 !! species_chart = Some (File "barh") ∧
  (main sample_render sample_files).1.2 !! growth_chart = Some (File "bar") ∧
  (main sample_render sample_files).1.2 !! report_path
  = Some (File (report_text 3)).
Proof. vm_compute. done. Qed.

(** * Further properties of the methods *)

(** ** Frequency counts *)

Section ValueCounts.
Context {F : Type} `{Arith F}.
Implicit Types (k : cell F) (col : list (cell F)) (acc : list (cell F * nat)).

Lemma acc_get_count_steps k col acc :
  isnull k = false →
  acc_get k (foldl count_step acc col)
  = if decide (occurrences k col = 0) then acc_get k acc
    else Some (default 0 (acc_get k acc) + occurrences k col).
Proof.
  intros Hk. unfold occurrences. revert acc.
  induction col as [|k' col IH]; intros acc; [done|].
  simpl. rewrite IH, filter_cons. unfold count_step.
  destruct (isnull k') eqn:Hk'.
  - by rewrite (decide_False (P:=k' = k)) by (by apply null_key_differs).
  - destruct (decide (k' = k)) as [->|Hne].
    + rewrite acc_get_accumulate_eq. simpl.
      destruct (decide (length (filter (λ c, c = k) col) = 0)) as [->|Hpos].
      * f_equal. lia.
      * f_equal. lia.
    + by rewrite acc_get_accumulate_ne.
Qed.

Lemma elem_of_count_steps_keys k col acc :
  k ∈ (foldl count_step acc col).*1 ↔ k ∈ acc.*1 ∨ (isnull k = false ∧ k ∈ col).
Proof.
  revert acc. induction col as [|k' col IH]; intros acc; simpl.
  - rewrite elem_of_nil. tauto.
  - rewrite IH, elem_of_cons. unfold count_step at 1.
    destruct (isnull k') eqn:Hk'.
    + split; [tauto|]. intros [?|[Hk [->|?]]]; [tauto|congruence|tauto].
    + rewrite elem_of_accumulate_keys.
      split; [|tauto]. intros [[->|?]|[??]]; tauto.
Qed.

Lemma NoDup_count_steps_keys col acc :
  NoDup acc.*1 → NoDup (foldl count_step acc col).*1.
Proof.
  revert acc. induction col as [|k' col IH]; intros acc Hacc; [done|].
  simpl. apply IH. unfold count_step.
  destruct (isnull k'); [done|]. by apply NoDup_accumulate_keys.
Qed.

Global Instance count_ge_total : Total (count_ge (F:=F)).
Proof. intros p q. unfold count_ge. lia. Qed.

Global Instance count_ge_trans : Transitive (count_ge (F:=F)).
Proof. intros p q r. unfold count_ge. lia. Qed.

(** [value_counts]: one entry for each value that occurs and is not
    missing, with the number of its occurrences, the most frequent first. *)
Lemma value_counts_spec col :
  NoDup (value_counts col).*1 ∧
  (∀ k, k ∈ (value_counts col).*1 ↔ k ∈ col ∧ isnull k = false) ∧
  (∀ k n, (k, n) ∈ value_counts col → n = occurrences k col ∧ 0 < n) ∧
  StronglySorted (λ p q, q.2 ≤ p.2) (value_counts col).
Proof.
  unfold value_counts. split_and!.
  - rewrite merge_sort_Permutation. apply NoDup_count_steps_keys, NoDup_nil_2.
  - intros k. rewrite merge_sort_Permutation, elem_of_count_steps_keys.
    simpl. rewrite elem_of_nil. tauto.
  - intros k n. rewrite merge_sort_Permutation. intros Hin.
    assert (isnull k = false ∧ k ∈ col) as [Hk Hcol].
    { apply (list_elem_of_fmap_2 fst) in Hin.
      apply elem_of_count_steps_keys in Hin as [Hin|[??]]; [|done].
      by apply elem_of_nil in Hin. }
    apply acc_get_elem_of in Hin; [|apply NoDup_count_steps_keys, NoDup_nil_2].
    rewrite acc_get_count_steps in Hin by done. simpl in Hin.
    assert (0 < occurrences k col) as Hpos.
    { unfold occurrences. apply list_elem_of_lookup in Hcol as [i Hi].
      assert (k ∈ filter (λ c, c = k) col) as Hf
        by (apply list_elem_of_filter; split; [done|by eapply list_elem_of_lookup_2]).
      destruct (filter (λ c, c = k) col); [by apply elem_of_nil in Hf|simpl; lia]. }
    rewrite decide_False in Hin by lia. simplify_eq. split; [done|lia].
  - apply (StronglySorted_merge_sort count_ge).
Qed.

End ValueCounts.

(** ** The conservation status and the habitats, line by line *)

Section StatusAndHabitat.
Context {F : Type} `{Extern F}.
Implicit Types (d : dataframe F) (c : list (cell F)).

Lemma conservation_status_analysis_run d :
  conservation_status_analysis d
  = (inr (), d,
     banner_lines "CONSERVATION STATUS ANALYSIS" ++ status_events d ++ [Line nl]).
Proof.
  rewrite <-bind_ret_r. unfold conservation_status_analysis. run.
  rewrite banner_run; run. unfold status_events.
  destruct (has_col "conservation_status" d) eqn:G.
  - apply has_col_true in G as [c Hc]. rewrite Hc. run.
    rewrite (column_run _ _ _ _ Hc); run. unfold mret, M_ret.
    rewrite !emit_pair, <-!(assoc_L (++)). done.
  - apply has_col_false in G. rewrite G. run. unfold mret, M_ret.
    rewrite !emit_pair, <-!(assoc_L (++)). done.
Qed.

Lemma status_lines_events d c :
  get_col "conservation_status" d = Some c →
  status_lines (banner_lines "CONSERVATION STATUS ANALYSIS"
                  ++ status_events d ++ [Line nl])
  = value_counts c.
Proof.
  unfold status_events. intros ->. unfold status_lines.
  rewrite !omap_app. simpl. rewrite (right_id_L [] (++)).
  induction (value_counts c) as [|[k n] l IH]; simpl; [done|].
  f_equal. exact IH.
Qed.

(** X1.  [conservation_status_analysis] never raises and never changes the
    table.  With a [conservation_status] column it prints one line for
    each status that occurs (a missing status is dropped), with the number
    of records that have it, the most frequent status first; without the
    column it prints no status line. *)
Theorem conservation_status_lines d :
  ∃ out,
    conservation_status_analysis d = (inr (), d, out) ∧
    (get_col "conservation_status" d = None → status_lines out = []) ∧
    (∀ c, get_col "conservation_status" d = Some c →
       NoDup (status_lines out).*1 ∧
       (∀ k, k ∈ (status_lines out).*1 ↔ k ∈ c ∧ isnull k = false) ∧
       (∀ k n, (k, n) ∈ status_lines out → n = occurrences k c ∧ 0 < n) ∧
       StronglySorted (λ p q, q.2 ≤ p.2) (status_lines out)).
Proof.
  eexists. split; [apply conservation_status_analysis_run|]. split.
  - intros Hnone. unfold status_events. by rewrite Hnone.
  - intros c Hc. rewrite (status_lines_events d c Hc). apply value_counts_spec.
Qed.

Lemma habitat_lines_of_events d h :
  get_col "habitat_type" d = Some h →
  habitat_lines (habitat_events d)
  = (λ hc, (hc.1, hc.2, fmul (fdiv (of_nat hc.2) (of_nat (nrows d))) (of_nat 100)))
    <$> value_counts h.
Proof.
  unfold habitat_events. intros ->. simpl.
  induction (value_counts h) as [|[k n] l IH]; simpl; [done|].
  f_equal. exact IH.
Qed.

(** X2.  Whenever [geographic_analysis] returns on a table with a
    [habitat_type] column, its habitat lines are these: one line for each
    habitat that occurs (a missing habitat is dropped), with the number of
    records that have it and that number as a percentage of [len(df)], the
    most frequent habitat first. *)
Theorem habitat_distribution_lines d h d' out :
  get_col "habitat_type" d = Some h →
  geographic_analysis d = (inr (), d', out) →
  NoDup (habitat_lines out).*1.*1 ∧
  (∀ k, k ∈ (habitat_lines out).*1.*1 ↔ k ∈ h ∧ isnull k = false) ∧
  (∀ k n pct, (k, n, pct) ∈ habitat_lines out →
     n = occurrences k h ∧
     pct = fmul (fdiv (of_nat n) (of_nat (nrows d))) (of_nat 100)) ∧
  StronglySorted (λ l1 l2, l2.1.2 ≤ l1.1.2) (habitat_lines out).
Proof.
  intros Hh Hrun.
  rewrite (geographic_analysis_habitat_lines _ _ _ Hrun).
  rewrite (habitat_lines_of_events d h Hh).
  destruct (value_counts_spec h) as (Hnd & Hkeys & Hcount & Hsorted).
  rewrite <-!list_fmap_compose.
  assert (fst ∘ fst ∘ (λ hc : cell F * nat,
            (hc.1, hc.2, fmul (fdiv (of_nat hc.2) (of_nat (nrows d))) (of_nat 100)))
          = fst) as -> by done.
  split_and!; try done.
  - intros k n pct Hin. apply list_elem_of_fmap in Hin as ([k' n'] & Heq & Hin).
    simpl in Heq. simplify_eq. split; [|done]. by apply Hcount.
  - apply (StronglySorted_fmap _ (λ p q : cell F * nat, q.2 ≤ p.2));
      [by intros [??] [??]|done].
Qed.

End StatusAndHabitat.

Lemma habitat_distribution_lines_witness :
  NoDup (habitat_lines (geographic_analysis flamingos).2).*1.*1 ∧
  (∀ k, k ∈ (habitat_lines (geographic_analysis flamingos).2).*1.*1
        ↔ k ∈ [CStr "Lagoon"; CStr "Salt lake"; CStr "Lagoon" : cell xnum]
          ∧ isnull k = false) ∧
  (∀ k n pct, (k, n, pct) ∈ habitat_lines (geographic_analysis flamingos).2 →
     n = occurrences k [CStr "Lagoon"; CStr "Salt lake"; CStr "Lagoon"] ∧
     pct = fmul (fdiv (of_nat n) (of_nat (nrows flamingos))) (of_nat 100)) ∧
  StronglySorted (λ l1 l2, l2.1.2 ≤ l1.1.2)
    (habitat_lines (geographic_analysis flamingos).2).
Proof.
  apply (habitat_distribution_lines flamingos
           [CStr "Lagoon"; CStr "Salt lake"; CStr "Lagoon"]
           (geographic_analysis flamingos).1.2).
  - reflexivity.
  - vm_compute. reflexivity.
Defined.

(** ** The statistics, in every case *)

Section StatisticsOutcomes.
Context {F : Type} `{Extern F}.
Implicit Types (d : dataframe F) (c : list (cell F)).

Lemma mapM_to_num_string c s : CStr s ∈ c → mapM to_num c = None.
Proof.
  intros Hin. apply mapM_None_2, Exists_exists. by exists (CStr s).
Qed.

(** X3.  [statistical_tests] in its four cases: without the column it prints
    its banner only; a string in the column is a [TypeError] at the mean;
    an exception of the Shapiro-Wilk test on the numbers that are not
    missing is not caught, and comes after the five statistics; otherwise
    the method returns and the p-value printed is that of the test.  The
    table is the same in each. *)
Theorem statistical_tests_outcomes d :
  (get_col "population_2023" d = None →
   statistical_tests d
   = (inr (), d, banner_lines "STATISTICAL ANALYSIS" ++ [Line nl]))
  ∧ (∀ c s, get_col "population_2023" d = Some c → CStr s ∈ c →
       ∃ m, statistical_tests d
            = (inl (TypeError m), d,
               banner_lines "STATISTICAL ANALYSIS"
               ++ [Line (nl +:+ "[+] Population Statistics (2023):")]))
  ∧ (∀ xs e, get_col "population_2023" d = Some (CNum <$> xs) →
       shapiro_wilk (dropna xs) = inl e →
       statistical_tests d
       = (inl e, d,
          banner_lines "STATISTICAL ANALYSIS" ++ statistics_events (dropna xs)))
  ∧ (∀ xs sp, get_col "population_2023" d = Some (CNum <$> xs) →
       shapiro_wilk (dropna xs) = inr sp →
       statistical_tests d
       = (inr (), d,
          banner_lines "STATISTICAL ANALYSIS" ++ statistics_events (dropna xs)
          ++ [PValue sp.2; Line nl])).
Proof.
  split_and!.
  - intros Hnone. rewrite <-bind_ret_r. unfold statistical_tests. run.
    rewrite banner_run; run.
    rewrite (proj2 (has_col_false _ _) Hnone). run. unfold mret, M_ret.
    by rewrite !emit_pair.
  - intros c s Hc Hs. eexists. rewrite <-bind_ret_r. unfold statistical_tests. run.
    rewrite banner_run; run.
    rewrite (proj2 (has_col_true _ _)) by (by rewrite Hc). run.
    rewrite (column_run _ _ _ _ Hc); run.
    assert (mapM to_num (filter (λ k : cell F, isnull k = false) c) = None)
      as Hnum by (apply (mapM_to_num_string _ s), list_elem_of_filter; by split).
    rewrite (numeric_fail _ _ _ Hnum). by rewrite !emit_pair.
  - intros xs e Hc Hsp. by rewrite (statistical_tests_numeric d xs Hc), Hsp.
  - intros xs sp Hc Hsp. by rewrite (statistical_tests_numeric d xs Hc), Hsp.
Qed.

End StatisticsOutcomes.

(** ** Loading, when it works *)

Section LoadingWorks.
Context {F : Type} `{Extern F}.


(** [load_data] changes no file, whatever its outcome. *)
Lemma load_data_files data_file (fs : gmap string node) :
  (load_data (F:=F) data_file fs).1.2 = fs.
Proof.
  destruct (read_csv_pure (F:=F) data_file fs) as [[e|d] Hread].
  - destruct (load_data_raises _ _ _ Hread) as [o ->]. done.
  - unfold load_data. rewrite bind_print. unfold try_except.
    rewrite (bind_inr _ _ _ _ _ _ Hread). by rewrite !bind_print.
Qed.

End LoadingWorks.

(** ** What the methods leave alone *)

Section ReadOnly.
Context {F : Type} `{Extern F}.

Global Instance same_table_preorder : PreOrder (same_table (F:=F)).
Proof.
  split.
  - by intros s.
  - intros s1 s2 s3. unfold same_table. congruence.
Qed.

Lemma same_table_on_table {X} (m : M F (dataframe F) X) :
  preserves eq m → preserves (same_table (F:=F)) (on_table m).
Proof.
  intros Hm s. unfold on_table, same_table. specialize (Hm (self_df s)).
  by destruct (m (self_df s)) as [[r d] o].
Qed.

Lemma same_table_on_files {X} (m : M F (gmap string node) X) :
  preserves (same_table (F:=F)) (on_files m).
Proof.
  intros s. unfold on_files, same_table. by destruct (m (files s)) as [[r fs] o].
Qed.

Hint Resolve same_table_on_files : preserves.
Hint Extern 1 (preserves (@same_table _) (on_table _)) =>
  apply same_table_on_table : preserves.
Hint Resolve preserves_column preserves_grouped_column preserves_numeric : preserves.

Lemma same_table_generate_visualizations render :
  preserves (same_table (F:=F)) (generate_visualizations render).
Proof. unfold generate_visualizations. auto 20 with preserves. Qed.

Lemma same_table_generate_report : preserves (same_table (F:=F)) generate_report.
Proof. unfold generate_report. cbv zeta. auto 40 with preserves. Qed.

(** X5.  Every method except [population_analysis] leaves [self.df] as it
    found it, whether it returns or raises. *)
Theorem methods_keep_the_table d fs render :
  (exploratory_analysis d).1.2 = d
  ∧ (geographic_analysis d).1.2 = d
  ∧ (conservation_status_analysis d).1.2 = d
  ∧ (statistical_tests d).1.2 = d
  ∧ self_df (generate_visualizations render {| self_df := d; files := fs |}).1.2 = d
  ∧ self_df (generate_report {| self_df := d; files := fs |}).1.2 = d.
Proof.
  split_and!.
  - symmetry. apply (preserves_exploratory_analysis eq).
  - symmetry. apply (preserves_geographic_analysis eq).
  - symmetry. apply (preserves_conservation_status_analysis eq).
  - symmetry. apply (preserves_statistical_tests eq).
  - symmetry.
    apply (same_table_generate_visualizations render {| self_df := d; files := fs |}).
  - symmetry. apply (same_table_generate_report {| self_df := d; files := fs |}).
Qed.

End ReadOnly.

Section Again.
Context {F : Type} `{Extern F}.
Implicit Types (d : dataframe F).

Lemma has_col_set_ne n m (c : list (cell F)) d :
  n ≠ m → has_col m (set_col n c d) = has_col m d.
Proof.
  intros Hne. apply eq_true_iff_eq. by rewrite !has_col_true, get_col_set_ne.
Qed.

Lemma growth_guard_again d d1 r o :
  when (has_col "population_2020" d && has_col "population_2023" d) growth_block d
  = (r, d1, o) →
  when (has_col "population_2020" d1 && has_col "population_2023" d1) growth_block d1
  = (r, d1, o).
Proof.
  destruct (has_col "population_2020" d && has_col "population_2023" d) eqn:G.
  2:{ simpl. intros [= <- <- <-]. by rewrite G. }
  pose proof G as G'. apply andb_true_iff in G' as [[c20 H20]%has_col_true [c23 H23]%has_col_true].
  simpl. rewrite <-!(bind_ret_r growth_block).
  destruct (mapM to_num c23) as [p23|] eqn:N23.
  - destruct (mapM to_num c20) as [p20|] eqn:N20.
    + destruct (decide (c23 = [] ∧ c20 = [])) as [[-> ->]|Hrows].
      { rewrite (growth_block_no_rows _ _ H23 H20). intros [= <- <- <-].
        rewrite !has_col_set_ne, G by done. simpl.
        rewrite <-!(bind_ret_r growth_block).
        rewrite growth_block_no_rows by (by rewrite get_col_set_ne).
        by rewrite set_col_set_col. }
      rewrite (growth_block_run _ _ _ _ _ _ H23 H20 N23 N20 Hrows).
      unfold mret at 1, M_ret at 1. rewrite emit_pair. intros [= <- <- <-].
      rewrite !has_col_set_ne, G by done. simpl. rewrite <-!(bind_ret_r growth_block).
      rewrite (growth_block_run c23 c20 p23 p20);
        [|by rewrite get_col_set_ne|by rewrite get_col_set_ne|done..].
      unfold mret, M_ret. by rewrite emit_pair, set_col_set_col, (right_id_L [] (++)).
    + destruct (growth_block_fail c23 c20 mret d H23 H20) as [e He]; [by right|].
      rewrite He. intros [= <- <- <-]. rewrite G. simpl. by rewrite <-bind_ret_r.
  - destruct (growth_block_fail c23 c20 mret d H23 H20) as [e He]; [by left|].
    rewrite He. intros [= <- <- <-]. rewrite G. simpl. by rewrite <-bind_ret_r.
Qed.

(** X6.  [population_analysis] called again on the table that it left
    does what it did the first time: the same lines, the same outcome,
    and the table is left as it was. *)
Theorem population_analysis_again d :
  population_analysis (population_analysis d).1.2 = population_analysis d.
Proof.
  rewrite (population_analysis_unfold d), bind_unfold.
  destruct (when _ growth_block d) as [[[e|[]] d1] o1] eqn:HG;
    apply growth_guard_again in HG.
  - rewrite emit_pair. simpl. by rewrite population_analysis_unfold, bind_unfold, HG.
  - rewrite !emit_state.
    assert (∀ B (m : M F (dataframe F) B), preserves eq m → (m d1).1.2 = d1) as Hkeep
      by (intros B m Hm; symmetry; apply Hm).
    rewrite Hkeep.
    + by rewrite population_analysis_unfold, bind_unfold, HG.
    + pose proof (preserves_breakdown (F:=F) eq) as Hbreakdown.
      auto 20 with preserves.
Qed.

End Again.

Section Exceptions.
Context {F : Type} `{Extern F}.
Implicit Types (d : dataframe F).



Lemma geographic_analysis_unfold d :
  geographic_analysis d
  = emit (banner_lines "GEOGRAPHIC DISTRIBUTION ANALYSIS")
      ((when (has_col "region" d) (print (Line region_title);; breakdown "region")
        ≫= λ _,
          when (has_col "habitat_type" d) (
            print (Line (nl +:+ "[*] Habitat Type Distribution:"));;
            h ← column "habitat_type";
            for_each (value_counts h) (λ hc,
              print (HabitatLine hc.1 hc.2
                       (percent (of_nat hc.2) (of_nat (nrows d))))));;
          print (Line nl)) d).
Proof. unfold geographic_analysis. rewrite banner_run. by rewrite bind_get. Qed.

(** X7.  Without a [population_2023] column, [population_analysis] raises
    [KeyError] after the title of the species breakdown when the table
    has a [species] column, and [geographic_analysis] does after the title
    of the region breakdown when it has a [region] column; without the
    key column [population_analysis] prints its banner only and
    [geographic_analysis] goes on to the habitats.  The table is left as
    it was. *)
Theorem missing_population_2023 d :
  has_col "population_2023" d = false →
  (has_col "species" d = true →
   population_analysis d
   = (inl (KeyError "Column not found: population_2023"), d,
      banner_lines "POPULATION ANALYSIS" ++ [Line species_title]))
  ∧ (has_col "species" d = false →
     population_analysis d
     = (inr (), d, banner_lines "POPULATION ANALYSIS" ++ [Line nl]))
  ∧ (has_col "region" d = true →
     geographic_analysis d
     = (inl (KeyError "Column not found: population_2023"), d,
        banner_lines "GEOGRAPHIC DISTRIBUTION ANALYSIS" ++ [Line region_title]))
  ∧ (has_col "region" d = false →
     geographic_analysis d
     = (inr (), d,
        banner_lines "GEOGRAPHIC DISTRIBUTION ANALYSIS" ++ habitat_events d
        ++ [Line nl])).
Proof.
  intros H23. pose proof H23 as Hnone. apply has_col_false in Hnone.
  split_and!.
  - intros [keys Hk]%has_col_true.
    rewrite population_analysis_unfold, H23, andb_false_r. run.
    rewrite (proj2 (has_col_true _ _)) by (by rewrite Hk). run.
    unfold breakdown. run.
    rewrite (column_run _ _ _ _ Hk); run.
    by rewrite (grouped_column_fail _ _ _ Hnone).
  - intros Hs. rewrite population_analysis_unfold, H23, andb_false_r. run.
    rewrite Hs. by run.
  - intros [keys Hk]%has_col_true.
    rewrite geographic_analysis_unfold.
    rewrite (proj2 (has_col_true "region" _)) by (by rewrite Hk). run.
    unfold breakdown. run.
    rewrite (column_run _ _ _ _ Hk); run.
    by rewrite (grouped_column_fail _ _ _ Hnone).
  - intros Hr.
    destruct (geographic_analysis_cases d) as (r1 & B & Hrun).
    inversion B as [B0|keys vals xs Hk Hv Hx|e Hs Hfail]; subst r1;
      [done|congruence..].
Qed.


End Exceptions.

(** The premise of X7 holds for the table with
    the columns [species] and [region] only. *)
Lemma missing_population_2023_witness :
  has_col "population_2023" (species_only (F:=xnum)) = false
  ∧ population_analysis (species_only (F:=xnum))
    = (inl (KeyError "Column not found: population_2023"), species_only,
       banner_lines "POPULATION ANALYSIS" ++ [Line species_title]).
Proof.
  split; [vm_compute; reflexivity|].
  destruct (missing_population_2023 (species_only (F:=xnum))) as (Hspecies & _).
  - vm_compute. reflexivity.
  - apply Hspecies. vm_compute. reflexivity.
Defined.

Section RunFiles.
Context {F : Type} `{Extern F}.

(** X9.  Whatever its outcome, [main] leaves every path as it was but for
    [outputs] and the three files it writes there: the data file in
    particular is only read. *)
Theorem main_touches_outputs_only (render : chart F → string) fs p :
  p ∉ output_paths → (main render fs).1.2 !! p = fs !! p.
Proof.
  intros Hp. unfold main, with_object. rewrite bind_unfold.
  pose proof (load_data_files "data/flamingo_data.csv" fs) as Hfs.
  destruct (load_data "data/flamingo_data.csv" fs) as [[[e|d] fs'] o];
    simpl in Hfs; subst fs'; [done|].
  rewrite emit_state. unfold call.
  pose proof (files_step_run_full_analysis render
                {| self_df := d; files := fs |}) as [Hsame _].
  destruct (run_full_analysis render {| self_df := d; files := fs |})
    as [[r s1] o1]. simpl in *. by apply Hsame.
Qed.

End RunFiles.

(** The data file of the sample run is not an output path, and is there
    after the run as it was. *)
Lemma main_touches_outputs_only_witness :
  ("data/flamingo_data.csv" ∉ output_paths)
  ∧ ((main sample_render sample_files).1.2 !! "data/flamingo_data.csv"
     = Some (File "flamingos")).
Proof.
  assert ("data/flamingo_data.csv" ∉ output_paths) as Hp
    by (apply (bool_decide_unpack _); vm_compute; exact I).
  split; [exact Hp|].
  rewrite (main_touches_outputs_only sample_render sample_files _ Hp).
  reflexivity.
Defined.
